(** * Soprano: NMR electric-field-gradient properties

    A shallow embedding of [soprano/properties/nmr/utils.py] and
    [soprano/properties/nmr/efg.py], and the properties of the tensor
    pipeline proved about it.

    Conventions of the embedding:
    - a numpy float is an exact rational ([Q]); equality of numbers is [==];
    - a 2-d array is a list of rows, a row is a list of numbers;
    - a Python exception is a value of [exn], a computation that can raise
      returns a [result];
    - the code that touches [s.info], prints or diagonalises runs in the
      monad [M], which threads the structure's side store and collects
      the observable events of the run. *)

From Stdlib Require Import QArith Qabs Lqa.
From stdpp Require Import gmap strings list pretty.

Local Open Scope Q_scope.

(** ** Python exceptions and results *)

Inductive exn : Type :=
| RuntimeError (msg : string)
| KeyError (key : string)
| TypeError
| ValueError
| IndexError.

Inductive result (A : Type) : Type :=
| Ok (a : A)
| Raise (e : exn).
Arguments Ok {A} a.
Arguments Raise {A} e.

Definition is_ok {A} (r : result A) : bool :=
  match r with Ok _ => true | Raise _ => false end.

Module Res.
Definition bind {A B} (r : result A) (f : A → result B) : result B :=
  match r with Ok a => f a | Raise e => Raise e end.

(** A vectorised row-wise operation: the first failing row fails the
    whole array. *)
Fixpoint for_each {A B} (f : A → result B) (l : list A) : result (list B) :=
  match l with
  | [] => Ok []
  | x :: l' => bind (f x) (λ y, bind (for_each f l') (λ ys, Ok (y :: ys)))
  end.
End Res.

Notation "'let?' x := r 'in' k" := (Res.bind r (λ x, k))
  (at level 10, x name, r at level 100, k at level 200, only parsing).

(** ** Floating-point division

    numpy does not raise on a division by zero: the quotient is [nan] for
    0/0 and a signed infinity otherwise. *)

Inductive xfloat : Type :=
| Fin (q : Q)
| Nan
| PInf
| NInf.

Definition np_div (a b : Q) : xfloat :=
  if Qeq_bool b 0 then
    (if Qeq_bool a 0 then Nan else if Qle_bool 0 a then PInf else NInf)
  else Fin (a / b).



(** ** numpy primitives on one row *)

Definition qsum (r : list Q) : Q := foldr Qplus 0 r.

(** [np.average(row)]. On a row of width zero numpy yields [nan]; every
    caller below raises on such a row, so the value there is never used. *)
Definition np_average (r : list Q) : Q :=
  qsum r / inject_Z (Z.of_nat (length r)).

(** Stable insertion of a keyed item in a list sorted by key. *)
Fixpoint insert_key {A} (x : Q * A) (l : list (Q * A)) : list (Q * A) :=
  match l with
  | [] => [x]
  | y :: l' => if Qle_bool (fst x) (fst y) then x :: y :: l'
               else y :: insert_key x l'
  end.

Definition sort_key {A} (l : list (Q * A)) : list (Q * A) :=
  foldr insert_key [] l.

(** [np.argsort(keys)]: the indices that sort [keys] in ascending order
    (insertion sort, which is what numpy runs on a short row). *)
Definition np_argsort (keys : list Q) : list nat :=
  (sort_key (zip keys (seq 0 (length keys)))).*2.

(** [np.sort(row)]. *)
Definition np_sort (r : list Q) : list Q :=
  (sort_key (zip r r)).*1.

(** [row[j]] for a non-negative index. *)
Definition item {A} (r : list A) (j : nat) : result A :=
  match r !! j with Some x => Ok x | None => Raise IndexError end.

(** [row[-1]]. *)
Definition item_last {A} (r : list A) : result A :=
  match last r with Some x => Ok x | None => Raise IndexError end.

(** [row[[j1, j2, ...]]]: fancy indexing by a list of indices. *)
Definition take_items {A} (r : list A) (js : list nat) : result (list A) :=
  Res.for_each (item r) js.

Definition qmax (a b : Q) : Q := if Qle_bool a b then b else a.
Definition qmin (a b : Q) : Q := if Qle_bool a b then a else b.

(** [np.amax(row)] and [np.amin(row)]: a reduction over an empty axis
    raises [ValueError]. *)
Definition np_amax (r : list Q) : result Q :=
  match r with
  | [] => Raise ValueError
  | x :: l => Ok (foldl qmax x l)
  end.

Definition np_amin (r : list Q) : result Q :=
  match r with
  | [] => Raise ValueError
  | x :: l => Ok (foldl qmin x l)
  end.

(** [np.median(row)]: the middle element of the sorted row, or the mean of
    the two middle elements when the width is even. As for [np_average]
    the value on an empty row is never used. *)
Definition np_median (r : list Q) : Q :=
  let s := np_sort r in
  let n := length s in
  if Nat.even n
  then (nth (n / 2 - 1) s 0 + nth (n / 2) s 0) / 2
  else nth (n / 2) s 0.

(** ** [soprano/properties/nmr/utils.py] *)

(** One row of [_haeb_sort]: [iso] is the row average, [sort_i] is
    [argsort(|row - iso|)[[1, 0, 2]]], the result is [row[sort_i]]. *)
Definition haeb_sort_row (r : list Q) : result (list Q) :=
  let iso := np_average r in
  let? sort_i := take_items (np_argsort (map (λ e, Qabs (e - iso)) r))
                            [1; 0; 2]%nat in
  take_items r sort_i.

Definition _haeb_sort (evals : list (list Q)) : result (list (list Q)) :=
  Res.for_each haeb_sort_row evals.

Definition anisotropy_row (reduced : bool) (h : list Q) : result Q :=
  let f := if reduced then 2 / 3 else 1 in
  let? h2 := item h 2 in
  let? h0 := item h 0 in
  let? h1 := item h 1 in
  Ok ((h2 - (h0 + h1) / 2) * f).

Definition _anisotropy (haeb_evals : list (list Q)) (reduced : bool)
  : result (list Q) :=
  Res.for_each (anisotropy_row reduced) haeb_evals.

Definition asymmetry_row (h : list Q) : result xfloat :=
  let? h1 := item h 1 in
  let? h0 := item h 0 in
  let? a := anisotropy_row true h in
  Ok (np_div (h1 - h0) a).

Definition _asymmetry (haeb_evals : list (list Q)) : result (list xfloat) :=
  Res.for_each asymmetry_row haeb_evals.

Definition span_row (r : list Q) : result Q :=
  let? mx := np_amax r in
  let? mn := np_amin r in
  Ok (mx - mn).

Definition _span (evals : list (list Q)) : result (list Q) :=
  Res.for_each span_row evals.

Definition skew_row (r : list Q) : result xfloat :=
  let num := 3 * (np_median r - np_average r) in
  let? s := span_row r in
  Ok (np_div num s).

Definition _skew (evals : list (list Q)) : result (list xfloat) :=
  Res.for_each skew_row evals.

(** ** The structure, its side store and the monad of the pipeline *)

Definition vec3 : Type := Q * Q * Q.
Definition mat3 : Type := vec3 * vec3 * vec3.

Definition vec3_to_list (v : vec3) : list Q :=
  let '(a, b, c) := v in [a; b; c].

(** [efg.T] *)
Definition mat_T (m : mat3) : mat3 :=
  let '((a00, a01, a02), (a10, a11, a12), (a20, a21, a22)) := m in
  ((a00, a10, a20), (a01, a11, a21), (a02, a12, a22)).

Definition vec_add (u v : vec3) : vec3 :=
  let '(u0, u1, u2) := u in
  let '(v0, v1, v2) := v in
  (u0 + v0, u1 + v1, u2 + v2).

Definition vec_div (u : vec3) (d : Q) : vec3 :=
  let '(u0, u1, u2) := u in (u0 / d, u1 / d, u2 / d).

Definition mat_add (m n : mat3) : mat3 :=
  let '(m0, m1, m2) := m in
  let '(n0, n1, n2) := n in
  (vec_add m0 n0, vec_add m1 n1, vec_add m2 n2).

Definition mat_div (m : mat3) (d : Q) : mat3 :=
  let '(m0, m1, m2) := m in (vec_div m0 d, vec_div m1 d, vec_div m2 d).

(** The structure as the pipeline sees it: the ["efg"] array when the
    structure has one, and the chemical symbols, one per atom. *)
Record Atoms : Type := {
  arrays_efg : option (list mat3);
  chemical_symbols : list string
}.

(** The three keys of [s.info] that the pipeline reads and writes:
    [EFGDiagonal.default_name] followed by ['_evals'], ['_evals_hsort']
    and ['_evecs']. *)
Inductive info_key : Type :=
| K_evals
| K_evals_hsort
| K_evecs.

Global Instance info_key_eq_dec : EqDecision info_key.
Proof. solve_decision. Defined.

Definition key_name (key : info_key) : string :=
  match key with
  | K_evals => "efg_diagonal_evals"
  | K_evals_hsort => "efg_diagonal_evals_hsort"
  | K_evecs => "efg_diagonal_evecs"
  end.

(** The part of the dictionary [s.info] under these three keys, each
    entry absent ([None]) or holding its array: the eigenvalues as rows,
    the eigenvectors as matrices. The pipeline touches no other key. *)
Record Info : Type := {
  info_evals : option (list (list Q));
  info_evals_hsort : option (list (list Q));
  info_evecs : option (list mat3)
}.

Definition info_has (i : Info) (key : info_key) : bool :=
  match key with
  | K_evals => bool_decide (is_Some (info_evals i))
  | K_evals_hsort => bool_decide (is_Some (info_evals_hsort i))
  | K_evecs => bool_decide (is_Some (info_evecs i))
  end.

(** What a run can be observed to do besides returning: the tests,
    reads and writes of the store, each pass of the diagonaliser over the
    batch, and what is printed. *)
Inductive event : Type :=
| InfoContains (key : info_key)
| InfoGet (key : info_key)
| InfoSet (key : info_key)
| Diagonalise
| Stdout (msg : string).

(** A computation of the pipeline: from the store before to a result
    (or an exception), the store after and the events along the way. *)
Record outcome (A : Type) : Type := {
  returned : result A;
  info : Info;
  trace : list event
}.
Arguments returned {A} o.
Arguments info {A} o.
Arguments trace {A} o.

Definition M (A : Type) : Type := Info → outcome A.

Definition ret {A} (a : A) : M A :=
  λ i, {| returned := Ok a; info := i; trace := [] |}.
Definition raise {A} (e : exn) : M A :=
  λ i, {| returned := Raise e; info := i; trace := [] |}.
Definition lift {A} (r : result A) : M A :=
  λ i, {| returned := r; info := i; trace := [] |}.
Definition bind {A B} (m : M A) (f : A → M B) : M B :=
  λ i, let o := m i in
       match returned o with
       | Ok a => let o' := f a (info o) in
                 {| returned := returned o'; info := info o';
                    trace := trace o ++ trace o' |}
       | Raise e => {| returned := Raise e; info := info o;
                       trace := trace o |}
       end.

Notation "'do' x <- m ; k" := (bind m (λ x, k))
  (at level 10, x name, m at level 100, k at level 200, only parsing).

Definition emit (e : event) : M unit :=
  λ i, {| returned := Ok (); info := i; trace := [e] |}.

(** [key in s.info] *)
Definition info_contains (key : info_key) : M bool :=
  λ i, {| returned := Ok (info_has i key); info := i;
          trace := [InfoContains key] |}.

(** [s.info[key]] for the two eigenvalue entries *)
Definition info_get_evals : M (list (list Q)) :=
  λ i, {| returned := match info_evals i with
                      | Some a => Ok a
                      | None => Raise (KeyError (key_name K_evals))
                      end;
          info := i; trace := [InfoGet K_evals] |}.

Definition info_get_evals_hsort : M (list (list Q)) :=
  λ i, {| returned := match info_evals_hsort i with
                      | Some a => Ok a
                      | None => Raise (KeyError (key_name K_evals_hsort))
                      end;
          info := i; trace := [InfoGet K_evals_hsort] |}.

(** [s.info[key] = value] *)
Definition info_set_evals (a : list (list Q)) : M unit :=
  λ i, {| returned := Ok ();
          info := {| info_evals := Some a;
                     info_evals_hsort := info_evals_hsort i;
                     info_evecs := info_evecs i |};
          trace := [InfoSet K_evals] |}.

Definition info_set_evals_hsort (a : list (list Q)) : M unit :=
  λ i, {| returned := Ok ();
          info := {| info_evals := info_evals i;
                     info_evals_hsort := Some a;
                     info_evecs := info_evecs i |};
          trace := [InfoSet K_evals_hsort] |}.

Definition info_set_evecs (a : list mat3) : M unit :=
  λ i, {| returned := Ok ();
          info := {| info_evals := info_evals i;
                     info_evals_hsort := info_evals_hsort i;
                     info_evecs := Some a |};
          trace := [InfoSet K_evecs] |}.

(** [s.get_array('efg')] *)
Definition get_array_efg (s : Atoms) : M (list mat3) :=
  match arrays_efg s with
  | Some a => ret a
  | None => raise (KeyError "efg")
  end.

(** The number of diagonalisation passes in a trace. *)
Definition is_diagonalise (e : event) : bool :=
  match e with Diagonalise => true | _ => false end.

Definition passes (t : list event) : nat :=
  length (filter (λ e, is_diagonalise e = true) t).

Definition is_print (e : event) : bool :=
  match e with Stdout _ => true | _ => false end.

(** The trace without what was printed, and what was printed. *)
Definition silent (t : list event) : list event :=
  filter (λ e, is_print e = false) t.

Definition printed (t : list event) : list event :=
  filter (λ e, is_print e = true) t.

(** ** Isotope selectors and the reference dataset *)

(** The Python values that can stand for an isotope: [None], an integer
    mass number or a string. *)
Inductive pyval : Type :=
| PNone
| PInt (z : Z)
| PStr (s : string).

Definition is_None (v : pyval) : bool :=
  match v with PNone => true | _ => false end.

(** [str(v)] *)
Definition py_str (v : pyval) : string :=
  match v with
  | PNone => "None"
  | PInt z => pretty z
  | PStr s => s
  end.

(** Modelled from the spec: the entry of one element in
    [data/nmrdata.json], which is not among the sources. It is a mapping
    with the default isotope under ["iso"], the most quadrupole-active
    isotope (or [None]) under ["Q_iso"], and one record per isotope under
    the isotope's identifier as a string, each carrying the quadrupole
    moment ["Q"]. *)
Record elem_data : Type := {
  d_iso : pyval;
  d_Q_iso : pyval;
  d_isotopes : gmap string Q
}.

(** A value found under a key of an element's entry: one of the two
    isotope markers, or the record of an isotope (its ["Q"] field). *)
Inductive elem_item : Type :=
| Marker (v : pyval)
| IsoRecord (q : Q).

(** [_nmr_data[e][key]], [None] for a missing key *)
Definition elem_getitem (de : elem_data) (key : string) : option elem_item :=
  if String.eqb key "iso" then Some (Marker (d_iso de))
  else if String.eqb key "Q_iso" then Some (Marker (d_Q_iso de))
  else IsoRecord <$> d_isotopes de !! key.

(** What the module takes from outside the repository: numpy's
    [linalg.eigh] on a symmetric 3x3 matrix (ascending eigenvalues and the
    matrix of eigenvectors), the conversion constant built from scipy's
    physical constants, and the module-level [_nmr_data] ([None] when the
    data file could not be loaded). *)
Class Library : Type := {
  eigh : mat3 → vec3 * mat3;
  k : Q;
  _nmr_data : option (gmap string elem_data)
}.

(** ** [soprano/properties/nmr/efg.py] *)

Definition _has_efg_check {A} (f : Atoms → M A) (s : Atoms) : M A :=
  if bool_decide (is_Some (arrays_efg s)) then f s
  else raise (RuntimeError
    "No electric field gradient data found for this system").

Module EFGDiagonal.
Definition default_name : string := "efg_diagonal".

Section Extract.
Context `{Library}.

Definition extract (s : Atoms) (save_info : bool)
  : M (list (list Q * mat3)) :=
  _has_efg_check (λ s,
    do efgs <- get_array_efg s;
    do _ <- emit Diagonalise;
    let efg_diag :=
      map (λ efg, let '(w, v) := eigh (mat_div (mat_add efg (mat_T efg)) 2)
                  in (vec3_to_list w, v)) efgs in
    do unzipped <- match efg_diag with
                   | [] => raise ValueError
                   | _ => ret (efg_diag.*1, efg_diag.*2)
                   end;
    let '(efg_evals, efg_evecs) := unzipped in
    do _ <- (if save_info then
               do _ <- info_set_evals efg_evals;
               do hsort <- lift (_haeb_sort efg_evals);
               do _ <- info_set_evals_hsort hsort;
               info_set_evecs efg_evecs
             else ret ());
    ret efg_diag) s.

(** Modelled from the spec: [AtomsProperty.get], whose class is not
    among the sources, runs [extract] on the structure with the
    class's [default_params], here [save_info = True]: a run of the
    diagonaliser writes the three entries back. *)
Definition get (s : Atoms) : M (list (list Q * mat3)) :=
  extract s true.
End Extract.
End EFGDiagonal.

(** The guard that opens [extract] in every derived quantity,
    [if ((not KEY in s.info) or force_recalc): EFGDiagonal.get(s)]:
    diagonalise unless the entry is in the store and no recalculation is
    forced. *)
Definition ensure `{Library} (key : info_key) (force_recalc : bool)
    (s : Atoms) : M unit :=
  do present <- info_contains key;
  if negb present || force_recalc
  then do _ <- EFGDiagonal.get s; ret ()
  else ret ().

Module EFGVzz.
Definition default_name : string := "efg_vzz".

Section Extract.
Context `{Library}.

Definition extract (s : Atoms) (force_recalc : bool) : M (list Q) :=
  _has_efg_check (λ s,
    do _ <- ensure K_evals_hsort force_recalc s;
    do efg_evals <- info_get_evals_hsort;
    lift (Res.for_each item_last efg_evals)) s.

(** Modelled from the spec: [AtomsProperty.get] with the class's
    [default_params], here [force_recalc = False]. *)
Definition get (s : Atoms) : M (list Q) := extract s false.
End Extract.
End EFGVzz.

Module EFGAnisotropy.
Definition default_name : string := "efg_anisotropy".

Definition extract `{Library} (s : Atoms) (force_recalc : bool)
  : M (list Q) :=
  _has_efg_check (λ s,
    do _ <- ensure K_evals_hsort force_recalc s;
    do efg_evals <- info_get_evals_hsort;
    lift (_anisotropy efg_evals false)) s.
End EFGAnisotropy.

Module EFGReducedAnisotropy.
Definition default_name : string := "efg_red_anisotropy".

Definition extract `{Library} (s : Atoms) (force_recalc : bool)
  : M (list Q) :=
  _has_efg_check (λ s,
    do _ <- ensure K_evals_hsort force_recalc s;
    do efg_evals <- info_get_evals_hsort;
    lift (_anisotropy efg_evals true)) s.
End EFGReducedAnisotropy.

Module EFGAsymmetry.
Definition default_name : string := "efg_asymmetry".

Definition extract `{Library} (s : Atoms) (force_recalc : bool)
  : M (list xfloat) :=
  _has_efg_check (λ s,
    do _ <- ensure K_evals_hsort force_recalc s;
    do efg_evals <- info_get_evals_hsort;
    lift (_asymmetry efg_evals)) s.
End EFGAsymmetry.

Module EFGSpan.
Definition default_name : string := "efg_span".

Definition extract `{Library} (s : Atoms) (force_recalc : bool)
  : M (list Q) :=
  _has_efg_check (λ s,
    do _ <- ensure K_evals force_recalc s;
    do efg_evals <- info_get_evals;
    lift (_span efg_evals)) s.
End EFGSpan.

Module EFGSkew.
Definition default_name : string := "efg_skew".

Definition extract `{Library} (s : Atoms) (force_recalc : bool)
  : M (list xfloat) :=
  _has_efg_check (λ s,
    do _ <- ensure K_evals force_recalc s;
    do efg_evals <- info_get_evals;
    lift (_skew efg_evals)) s.
End EFGSkew.

(** [a * b] on two 1-d arrays, with numpy's broadcasting: equal lengths
    multiply element by element, an array of length one is stretched, any
    other pair of lengths raises. *)
Definition np_mul (a b : list Q) : result (list Q) :=
  if decide (length a = length b) then Ok (zip_with Qmult a b)
  else match a, b with
       | [x], _ => Ok (map (Qmult x) b)
       | _, [y] => Ok (map (λ x, x * y) a)
       | _, _ => Raise ValueError
       end.

(** [enumerate(l)] *)
Definition enumerate {A} (l : list A) : list (nat * A) :=
  zip (seq 0 (length l)) l.

Module EFGQuadrupolarConstant.
Definition default_name : string := "efg_qconst".

Section Extract.
Context `{Library}.

(** The choice of the isotope of atom [i], of element [e] with entry
    [de] in the dataset: the local variable [iso] is assigned from
    [isotope_list] first, when the list has an entry for the atom that is
    not [None], and then assigned again by the [if]/[elif]/[else] that
    follows, in each of its branches. *)
Definition select_isotope (de : elem_data)
    (use_q_isotopes : bool) (isotopes : gmap string pyval)
    (isotope_list : option (list pyval)) (i : nat) (e : string)
  : result pyval :=
  let? iso := match isotope_list with
              | Some l =>
                  let? v := item l i in
                  Ok (if is_None v then None else Some v)
              | None => Ok None
              end in
  let? iso := match isotopes !! e with
              | Some v => Ok v
              | None =>
                  if use_q_isotopes && negb (is_None (d_Q_iso de))
                  then Ok (d_Q_iso de)
                  else Ok (d_iso de)
              end in
  Ok iso.

(** [_nmr_data[e][str(iso)]['Q']] inside the [try] whose [KeyError]
    becomes the [RuntimeError] of a missing isotope. Subscripting one
    of the two isotope markers with ['Q'] is a [TypeError], which the
    [try] does not catch. *)
Definition isotope_moment (de : elem_data) (iso : pyval) (e : string)
  : result Q :=
  match elem_getitem de (py_str iso) with
  | None => Raise (RuntimeError ("Isotope " +:+ py_str iso +:+
                                 " does not exist for element " +:+ e))
  | Some (Marker _) => Raise TypeError
  | Some (IsoRecord q) => Ok q
  end.

(** The body of the loop over [enumerate(elems)]. *)
Definition atom_moment (data : gmap string elem_data)
    (use_q_isotopes : bool) (isotopes : gmap string pyval)
    (isotope_list : option (list pyval)) (ie : nat * string)
  : result Q :=
  let '(i, e) := ie in
  match data !! e with
  | None => Raise (RuntimeError ("No NMR data on element " +:+ e))
  | Some de =>
      let? iso := select_isotope de use_q_isotopes isotopes
                                 isotope_list i e in
      isotope_moment de iso e
  end.

Definition extract (s : Atoms) (force_recalc use_q_isotopes : bool)
    (isotopes : gmap string pyval) (isotope_list : option (list pyval))
  : M (list Q) :=
  _has_efg_check (λ s,
    do _ <- ensure K_evals force_recalc s;
    do data <- match _nmr_data with
               | None => raise (RuntimeError
                   ("NMR data not available. Something may be " +:+
                    "wrong with this installation of Soprano"))
               | Some data => ret data
               end;
    let elems := chemical_symbols s in
    do isotope_list <-
      match isotope_list with
      | Some l =>
          if negb (bool_decide (length l = length elems))
          then do _ <- emit (Stdout "WARNING - invalid isotope_list, ignoring");
               ret None
          else ret (Some l)
      | None => ret None
      end;
    do q_list <- lift (Res.for_each
        (atom_moment data use_q_isotopes isotopes isotope_list)
        (enumerate elems));
    do vzz <- EFGVzz.get s;
    lift (np_mul (map (Qmult k) q_list) vzz)) s.
End Extract.
End EFGQuadrupolarConstant.

(** ** The operations of the pipeline, as one type

    Each operation with its parameters, and the value it returns. *)
Inductive operation : Type :=
| Diagonal (save_info : bool)
| Vzz (force_recalc : bool)
| Anisotropy (force_recalc : bool)
| ReducedAnisotropy (force_recalc : bool)
| Asymmetry (force_recalc : bool)
| Span (force_recalc : bool)
| Skew (force_recalc : bool)
| QuadrupolarConstant (force_recalc use_q_isotopes : bool)
    (isotopes : gmap string pyval) (isotope_list : option (list pyval)).

Inductive value : Type :=
| Eigen (d : list (list Q * mat3))
| Floats (a : list Q)
| XFloats (a : list xfloat).

Definition fmapM {A B} (f : A → B) (m : M A) : M B :=
  do a <- m; ret (f a).

Definition run `{Library} (op : operation) (s : Atoms) : M value :=
  match op with
  | Diagonal save_info => fmapM Eigen (EFGDiagonal.extract s save_info)
  | Vzz force => fmapM Floats (EFGVzz.extract s force)
  | Anisotropy force => fmapM Floats (EFGAnisotropy.extract s force)
  | ReducedAnisotropy force =>
      fmapM Floats (EFGReducedAnisotropy.extract s force)
  | Asymmetry force => fmapM XFloats (EFGAsymmetry.extract s force)
  | Span force => fmapM Floats (EFGSpan.extract s force)
  | Skew force => fmapM XFloats (EFGSkew.extract s force)
  | QuadrupolarConstant force use_q isotopes isotope_list =>
      fmapM Floats (EFGQuadrupolarConstant.extract s force use_q
                      isotopes isotope_list)
  end.

(** The derived quantities (every operation but the diagonalisation
    itself), the flag that forces a recalculation (the diagonalisation
    itself always computes) and the entry whose presence the operation
    tests first. *)
Definition derived (op : operation) : bool :=
  match op with Diagonal _ => false | _ => true end.

Definition forced (op : operation) : bool :=
  match op with
  | Diagonal _ => true
  | Vzz f | Anisotropy f | ReducedAnisotropy f | Asymmetry f
  | Span f | Skew f | QuadrupolarConstant f _ _ _ => f
  end.

Definition tested_key (op : operation) : info_key :=
  match op with
  | Vzz _ | Anisotropy _ | ReducedAnisotropy _ | Asymmetry _ => K_evals_hsort
  | Diagonal _ | Span _ | Skew _ | QuadrupolarConstant _ _ _ _ => K_evals
  end.

(** ** A small library instance for the examples

    [eigh] here is exact on diagonal tensors, which is all the examples
    use: the eigenvalues are the sorted diagonal and the eigenvectors the
    unit vectors in the same order. *)

Definition unit_vector (j : nat) : vec3 :=
  match j with
  | O => (1, 0, 0)
  | S O => (0, 1, 0)
  | _ => (0, 0, 1)
  end.

Definition eigh_diagonal (m : mat3) : vec3 * mat3 :=
  let '((a, _, _), (_, b, _), (_, _, c)) := m in
  let w := np_sort [a; b; c] in
  let p := np_argsort [a; b; c] in
  ((nth 0 w 0, nth 1 w 0, nth 2 w 0),
   mat_T (unit_vector (nth 0 p O), unit_vector (nth 1 p O),
          unit_vector (nth 2 p O))).

(** Hydrogen with three isotope records and deuterium as its most
    quadrupole-active isotope, nitrogen with two. *)
Definition demo_hydrogen : elem_data :=
  {| d_iso := PInt 1; d_Q_iso := PInt 2;
     d_isotopes := {[ "1" := 0; "2" := 286 # 100; "3" := 0 ]} |}.

Definition demo_nitrogen : elem_data :=
  {| d_iso := PInt 14; d_Q_iso := PInt 14;
     d_isotopes := {[ "14" := 2044 # 100; "15" := 0 ]} |}.

Definition demo_data : gmap string elem_data :=
  {[ "H" := demo_hydrogen; "N" := demo_nitrogen ]}.

Definition demo_library : Library :=
  {| eigh := eigh_diagonal; k := 5 # 2; _nmr_data := Some demo_data |}.

Definition diag (a b c : Q) : mat3 := ((a, 0, 0), (0, b, 0), (0, 0, c)).

Definition empty_info : Info :=
  {| info_evals := None; info_evals_hsort := None; info_evecs := None |}.

(** ** Vocabulary of the statements *)


(** A triplet in Haeberlen order around [iso]: position 1 deviates least
    from [iso], position 0 comes next and position 2 deviates most. *)
Definition haeberlen_ordered (iso : Q) (h : list Q) : Prop :=
  ∃ h0 h1 h2, h = [h0; h1; h2] ∧
    Qabs (h1 - iso) <= Qabs (h0 - iso) ∧
    Qabs (h0 - iso) <= Qabs (h2 - iso).

(** [m] is a greatest (a least) element of the row [r]. *)
Definition greatest (r : list Q) (m : Q) : Prop :=
  m ∈ r ∧ Forall (λ y, y <= m) r.

Definition least (r : list Q) (m : Q) : Prop :=
  m ∈ r ∧ Forall (λ y, m <= y) r.

(** [m] is the median of the triplet [r]. *)
Definition middle (r : list Q) (m : Q) : Prop :=
  ∃ lo hi, r ≡ₚ [lo; m; hi] ∧ lo <= m ∧ m <= hi.


(** What one pass of the diagonaliser computes from the tensor batch: the
    rows of ascending eigenvalues and the matrices of eigenvectors. *)
Definition batch_evals `{Library} (batch : list mat3) : list (list Q) :=
  map (λ efg, vec3_to_list (eigh (mat_div (mat_add efg (mat_T efg)) 2)).1)
      batch.

Definition batch_evecs `{Library} (batch : list mat3) : list mat3 :=
  map (λ efg, (eigh (mat_div (mat_add efg (mat_T efg)) 2)).2) batch.

(** The entries that an operation reads from the store: the one it tests
    first and, for the quadrupolar constant, the Haeberlen-sorted
    eigenvalues that [EFGVzz] reads for it. *)
Definition read_keys (op : operation) : list info_key :=
  match op with
  | QuadrupolarConstant _ _ _ _ => [K_evals; K_evals_hsort]
  | _ => [tested_key op]
  end.

(** A structure as the atoms container keeps it: a per-atom array has
    one entry per atom. *)
Definition well_formed (s : Atoms) : Prop :=
  ∀ batch, arrays_efg s = Some batch →
           length batch = length (chemical_symbols s).

(** The store after one pass of the diagonaliser over [batch], with [hs]
    the Haeberlen-sorted eigenvalues. *)
Definition stored_entries `{Library} (batch : list mat3)
    (hs : list (list Q)) : Info :=
  {| info_evals := Some (batch_evals batch);
     info_evals_hsort := Some hs;
     info_evecs := Some (batch_evecs batch) |}.

(** A computation that leaves the store as it found it and does not
    diagonalise. *)
Definition quiet {A} (m : M A) : Prop :=
  ∀ i, info (m i) = i ∧ passes (trace (m i)) = 0%nat.

Definition no_efg_error : exn :=
  RuntimeError "No electric field gradient data found for this system".

Definition warning : event :=
  Stdout "WARNING - invalid isotope_list, ignoring".

(** A computation that prints nothing. *)
Definition mute {A} (m : M A) : Prop :=
  ∀ i, printed (trace (m i)) = [].

(** The element [e] resolves to the quadrupole moment [q]: the element is
    in the dataset, and the isotope that the loop selects for it has a
    record there, with moment [q]. *)
Definition resolves_to (data : gmap string elem_data) (use_q_isotopes : bool)
    (isotopes : gmap string pyval) (e : string) (q : Q) : Prop :=
  ∃ de iso,
    data !! e = Some de ∧
    EFGQuadrupolarConstant.select_isotope de use_q_isotopes isotopes
      None 0 e = Ok iso ∧
    elem_getitem de (py_str iso) = Some (IsoRecord q).


(** Structures and stores of the examples. *)
Definition one_hydrogen : Atoms :=
  {| arrays_efg := Some [diag 1 (-2) 1]; chemical_symbols := ["H"] |}.

Definition only_evals : Info :=
  {| info_evals := Some [[-2; 1; 1]]; info_evals_hsort := None;
     info_evecs := None |}.

Definition without_evals : Info :=
  {| info_evals := None; info_evals_hsort := Some [[1; 1; -2]];
     info_evecs := Some [diag 1 1 1] |}.


Definition hydrogen_and_unknown : Atoms :=
  {| arrays_efg := Some [diag 1 (-2) 1; diag 2 (-1) (-1)];
     chemical_symbols := ["H"; "X"] |}.

Definition no_element_error (e : string) : exn :=
  RuntimeError ("No NMR data on element " +:+ e).

Definition no_isotope_error (iso : pyval) (e : string) : exn :=
  RuntimeError ("Isotope " +:+ py_str iso +:+
                " does not exist for element " +:+ e).

(** The claim on an absent element as it is stated: whenever some atom's
    element is absent from the dataset, the error raised is the one of an
    absent element. *)
Definition absent_element_always_reported : Prop :=
  ∀ (lib : Library) s batch data force use_q isotopes isotope_list i e,
    _nmr_data = Some data →
    arrays_efg s = Some batch →
    length batch = length (chemical_symbols s) →
    e ∈ chemical_symbols s → data !! e = None →
    ∃ e', e' ∈ chemical_symbols s ∧ data !! e' = None ∧
      returned (EFGQuadrupolarConstant.extract s force use_q isotopes
                  isotope_list i) = Raise (no_element_error e').

(** The isotope of atom [i] as the docstring of the class has it, for a
    list with one entry per atom: an entry of [isotope_list] that is not
    [None] overrides everything else, then comes the mapping [isotopes],
    then the most quadrupole-active isotope when [use_q_isotopes] is set
    and there is one, then the default. *)
Definition documented_isotope (de : elem_data) (use_q_isotopes : bool)
    (isotopes : gmap string pyval) (isotope_list : option (list pyval))
    (i : nat) (e : string) : pyval :=
  match isotope_list ≫= (λ l, l !! i) with
  | Some (PInt z) => PInt z
  | Some (PStr x) => PStr x
  | _ =>
      match isotopes !! e with
      | Some v => v
      | None => if use_q_isotopes && negb (is_None (d_Q_iso de))
                then d_Q_iso de else d_iso de
      end
  end.

(** The two eigenvalue entries are present or absent together. *)
Definition coherent (i : Info) : Prop :=
  info_has i K_evals = info_has i K_evals_hsort.

(** ** Further vocabulary *)

(** A quotient of the pipeline that is a number between [lo] and [hi],
    or [nan] in the degenerate case, and never an infinity. *)
Definition within (lo hi : Q) (degenerate : Prop) (x : xfloat) : Prop :=
  match x with
  | Fin q => lo <= q ∧ q <= hi
  | Nan => degenerate
  | PInf | NInf => False
  end.

(** All the entries of the row are equal to [v]. *)
Definition constant_row (v : Q) (r : list Q) : Prop :=
  Forall (λ e, e == v) r.

(** [r >>= f] on results, and the map of a result. *)
Definition result_map {A B} (f : A → B) (r : result A) : result B :=
  match r with Ok a => Ok (f a) | Raise e => Raise e end.

(** What an operation computes from the entries of a store [i], once its
    guard has passed: the rest of its [extract], without the guard. *)
Definition from_store `{Library} (op : operation) (s : Atoms) (i : Info)
  : result value :=
  match op with
  | Diagonal _ =>
      result_map Eigen
        (let? ev := returned (info_get_evals i) in
         match info_evecs i with
         | Some vs => Ok (zip ev vs)
         | None => Raise (KeyError (key_name K_evecs))
         end)
  | Vzz _ =>
      result_map Floats
        (let? hs := returned (info_get_evals_hsort i) in
         Res.for_each item_last hs)
  | Anisotropy _ =>
      result_map Floats
        (let? hs := returned (info_get_evals_hsort i) in _anisotropy hs false)
  | ReducedAnisotropy _ =>
      result_map Floats
        (let? hs := returned (info_get_evals_hsort i) in _anisotropy hs true)
  | Asymmetry _ =>
      result_map XFloats
        (let? hs := returned (info_get_evals_hsort i) in _asymmetry hs)
  | Span _ =>
      result_map Floats
        (let? ev := returned (info_get_evals i) in _span ev)
  | Skew _ =>
      result_map XFloats
        (let? ev := returned (info_get_evals i) in _skew ev)
  | QuadrupolarConstant _ use_q isotopes _ =>
      result_map Floats
        (match _nmr_data with
         | None => Raise (RuntimeError
             ("NMR data not available. Something may be " +:+
              "wrong with this installation of Soprano"))
         | Some data =>
             let? q_list := Res.for_each
               (EFGQuadrupolarConstant.atom_moment data use_q isotopes None)
               (enumerate (chemical_symbols s)) in
             let? hs := returned (info_get_evals_hsort i) in
             let? vzz := Res.for_each item_last hs in
             np_mul (map (Qmult k) q_list) vzz
         end)
  end.

(** The number of per-atom values in what an operation returns. *)
Definition value_length (v : value) : nat :=
  match v with
  | Eigen d => length d
  | Floats a => length a
  | XFloats a => length a
  end.

(** The derived quantities that only read one entry of the store. *)
Definition reads_one_entry (op : operation) : bool :=
  match op with
  | Diagonal _ | QuadrupolarConstant _ _ _ _ => false
  | _ => true
  end.

(** The guard passes when the structure has a tensor, or when every
    entry that the operation reads is in the store and nothing is
    forced. *)
Definition guard_passes (op : operation) (batch : list mat3) (i : Info)
  : Prop :=
  batch ≠ [] ∨
  (Forall (λ key, info_has i key = true) (read_keys op) ∧ forced op = false).


Definition only_evals_hsort_entry : Info :=
  {| info_evals := None; info_evals_hsort := Some [[1; 1; -2]];
     info_evecs := None |}.

(** A structure whose tensor array is there and holds no tensor. *)
Definition no_atoms : Atoms :=
  {| arrays_efg := Some []; chemical_symbols := [] |}.

(** The example library with the data file missing. *)
Definition bare_library : Library :=
  {| eigh := eigh_diagonal; k := 5 # 2; _nmr_data := None |}.

Definition no_dataset_error : exn :=
  RuntimeError ("NMR data not available. Something may be " +:+
                "wrong with this installation of Soprano").

(** The error that the loop of the quadrupolar constant raises on an atom
    of element [e], if any: the element is absent, the selected isotope
    has no record, or it names one of the two markers. *)
Definition atom_error (data : gmap string elem_data) (use_q_isotopes : bool)
    (isotopes : gmap string pyval) (e : string) : option exn :=
  match data !! e with
  | None => Some (no_element_error e)
  | Some de =>
      let iso := documented_isotope de use_q_isotopes isotopes None 0 e in
      match elem_getitem de (py_str iso) with
      | None => Some (no_isotope_error iso e)
      | Some (Marker _) => Some TypeError
      | Some (IsoRecord _) => None
      end
  end.

(** The error of the first atom that has one. *)
Fixpoint first_error (data : gmap string elem_data) (use_q_isotopes : bool)
    (isotopes : gmap string pyval) (elems : list string) : option exn :=
  match elems with
  | [] => None
  | e :: elems' =>
      match atom_error data use_q_isotopes isotopes e with
      | Some err => Some err
      | None => first_error data use_q_isotopes isotopes elems'
      end
  end.

(** What a list of the wrong length makes the call print. *)
Definition list_warning (isotope_list : option (list pyval)) (atoms : nat)
  : list event :=
  match isotope_list with
  | Some l => if bool_decide (length l = atoms) then [] else [warning]
  | None => []
  end.

(** ** [soprano/utils.py]: the grid of a supercell

    An n-dimensional numpy array is its shape and its cells; for the
    4-d arrays of [supcell_gridgen] the cells are a function of the four
    indices, which is what the axis operations act on. *)

Record array4 : Type := {
  dims : nat * nat * nat * nat;
  cells : nat → nat → nat → nat → Z
}.

(** [range(lo, hi)] *)
Definition py_range (lo hi : Z) : list Z := seqZ lo (hi - lo).

(** [np.meshgrid(x, y, z)] handed to a numpy function as one array: with
    the default ['xy'] indexing each of the three grids has the shape
    [(len(y), len(x), len(z))], and grid [c] holds the coordinate [c]. *)
Definition np_meshgrid (xs ys zs : list Z) : array4 :=
  {| dims := (3, length ys, length xs, length zs)%nat;
     cells := λ c j i k,
       match c with
       | O => nth i xs 0%Z
       | S O => nth j ys 0%Z
       | _ => nth k zs 0%Z
       end |}.

(** [np.swapaxes(a, 0, 3)] *)
Definition np_swapaxes_0_3 (a : array4) : array4 :=
  let '(n0, n1, n2, n3) := dims a in
  {| dims := (n3, n1, n2, n0);
     cells := λ a0 a1 a2 a3, cells a a3 a1 a2 a0 |}.

(** The cells of an array in C order, the last axis running fastest. *)
Definition np_ravel (a : array4) : list Z :=
  let '(n0, n1, n2, n3) := dims a in
  a0 ← seq 0 n0; a1 ← seq 0 n1; a2 ← seq 0 n2; a3 ← seq 0 n3;
  [cells a a0 a1 a2 a3].

(** [np.reshape(a, (-1, 3))]: the cells in C order, cut in rows of three;
    a number of cells that three does not divide raises. *)
Definition np_reshape_rows3 (a : array4) : result (list (list Z)) :=
  let flat := np_ravel a in
  if decide (length flat `mod` 3 = 0)%nat
  then Ok (reshape (replicate (length flat `div` 3) 3%nat) flat)
  else Raise ValueError.

(** [np.dot(a, b)] of integer rows with a matrix of three rows. *)
Definition np_dot (a : list (list Z)) (b : list (list Q))
  : list (list Q) :=
  map (λ row,
         map (λ c, qsum (zip_with (λ x brow, inject_Z x * nth c brow 0)
                                  row b))
             (seq 0 3)) a.

(** [np.array(m).shape == (3, 3)] *)
Definition is_shape_3_3 {A} (m : list (list A)) : bool :=
  bool_decide (length m = 3%nat) &&
  forallb (λ r, bool_decide (length r = 3%nat)) m.

Definition supcell_gridgen (latt_cart : list (list Q)) (r_bounds : list Z)
  : result (list (list Z) * list (list Q)) :=
  if negb (is_shape_3_3 latt_cart) then Raise ValueError
  else if negb (bool_decide (length r_bounds = 3%nat)) then Raise ValueError
  else
    let? r0 := item r_bounds 0 in
    let? r1 := item r_bounds 1 in
    let? r2 := item r_bounds 2 in
    let x_range := py_range (- r0) (r0 + 1) in
    let y_range := py_range (- r1) (r1 + 1) in
    let z_range := py_range (- r2) (r2 + 1) in
    let neigh_i_grid :=
      np_swapaxes_0_3 (np_meshgrid x_range y_range z_range) in
    let? neigh_i_grid := np_reshape_rows3 neigh_i_grid in
    let neigh_grid := np_dot neigh_i_grid latt_cart in
    Ok (neigh_i_grid, neigh_grid).

(** The cells of the box with the given half-widths, the first
    coordinate running fastest. *)
Definition box_rows (xs ys zs : list Z) : list (list Z) :=
  z ← zs; y ← ys; x ← xs; [[x; y; z]].

(** The integer combination of the three lattice vectors. *)
Definition lattice_point (latt_cart : list (list Q)) (x y z : Z)
  : list Q :=
  match latt_cart with
  | [[a0; a1; a2]; [b0; b1; b2]; [c0; c1; c2]] =>
      [inject_Z x * a0 + inject_Z y * b0 + inject_Z z * c0;
       inject_Z x * a1 + inject_Z y * b1 + inject_Z z * c1;
       inject_Z x * a2 + inject_Z y * b2 + inject_Z z * c2]
  | _ => []
  end.

Definition cubic (a : Q) : list (list Q) :=
  [[a; 0; 0]; [0; a; 0]; [0; 0; a]].

(** ** [soprano/properties/nmr/utils.py]: eigenvectors as rotations *)




Section Quaternions.
(** [ase.quaternions.Quaternion] and its [from_matrix], which are not
    part of the repository. *)
Context {Quaternion : Type} (from_matrix : mat3 → Quaternion).


End Quaternions.






(** * Properties *)

(** ** Results and rows *)

Lemma for_each_Forall2 {A B} (f : A → result B) (P : A → B → Prop) l :
  Forall (λ x, ∃ y, f x = Ok y ∧ P x y) l →
  ∃ ys, Res.for_each f l = Ok ys ∧ Forall2 P l ys.
Proof.
  induction 1 as [|x l (y & Hy & HP) _ (ys & Hys & IH)]; simpl.
  - by exists [].
  - exists (y :: ys). rewrite Hy, Hys. simpl. by split; [|constructor].
Qed.

Lemma for_each_length {A B} (f : A → result B) l ys :
  Res.for_each f l = Ok ys → length ys = length l.
Proof.
  revert ys. induction l as [|x l IH]; intros ys; simpl.
  - by intros [= <-].
  - destruct (f x); [|done]. simpl.
    destruct (Res.for_each f l) as [zs|]; [|done]. simpl.
    intros [= <-]. simpl. f_equal. by apply IH.
Qed.

Lemma for_each_ext {A B} (f g : A → result B) l :
  Forall (λ x, f x = g x) l → Res.for_each f l = Res.for_each g l.
Proof. induction 1 as [|x l E _ IH]; simpl; [done|]. by rewrite E, IH. Qed.


Lemma length_three {A} (l : list A) :
  length l = 3%nat → ∃ a b c, l = [a; b; c].
Proof. destruct l as [|a [|b [|c [|]]]]; try done. eauto. Qed.

Lemma Qle_bool_false x y : Qle_bool x y = false → y < x.
Proof.
  intros E. apply Qnot_le_lt. intros L. apply Qle_bool_iff in L. congruence.
Qed.

Ltac qle_cases :=
  repeat match goal with
  | |- context [Qle_bool ?x ?y] =>
      let E := fresh "E" in
      destruct (Qle_bool x y) eqn:E;
      [apply Qle_bool_iff in E | apply Qle_bool_false in E]; simpl
  end.

(** ** The Haeberlen sort *)

Lemma haeb_sort_row_triple (a b c : Q) :
  ∃ h, haeb_sort_row [a; b; c] = Ok h ∧
       [a; b; c] ≡ₚ h ∧ haeberlen_ordered (np_average [a; b; c]) h.
Proof.
  unfold haeb_sort_row, haeberlen_ordered.
  generalize (np_average [a; b; c]). intros iso.
  unfold np_argsort, sort_key. simpl.
  set (ka := Qabs (a - iso)). set (kb := Qabs (b - iso)).
  set (kc := Qabs (c - iso)).
  assert (Ha : ka == Qabs (a - iso)) by reflexivity.
  assert (Hb : kb == Qabs (b - iso)) by reflexivity.
  assert (Hc : kc == Qabs (c - iso)) by reflexivity.
  clearbody ka kb kc.
  qle_cases; eexists; (split; [reflexivity|]);
    (split; [solve_Permutation|]); do 3 eexists;
    (split; [reflexivity|]); split; lra.
Qed.

Lemma haeb_sort_triples (evals : list (list Q)) :
  Forall (λ r, length r = 3%nat) evals →
  ∃ res, _haeb_sort evals = Ok res ∧
    Forall2 (λ r h, r ≡ₚ h ∧ haeberlen_ordered (np_average r) h) evals res.
Proof.
  intros Hlen. apply for_each_Forall2.
  eapply Forall_impl; [exact Hlen|]. intros r Hr.
  destruct (length_three r Hr) as (a & b & c & ->).
  apply haeb_sort_row_triple.
Qed.



(** ** Anisotropy *)

(** C5. For every batch of Haeberlen-sorted triplets, the anisotropy
    computed with [reduced=True] is the one computed with [reduced=False]
    times 2/3, and the latter is position 2 minus the mean of positions 0
    and 1. *)
Theorem anisotropy_reduced_scaling (haeb_evals : list (list Q)) :
  Forall (λ h, length h = 3%nat) haeb_evals →
  ∃ full red,
    _anisotropy haeb_evals false = Ok full ∧
    _anisotropy haeb_evals true = Ok red ∧
    Forall2 (λ x y, x == y * (2 / 3)) red full ∧
    Forall2 (λ h y, ∃ h0 h1 h2, h = [h0; h1; h2] ∧ y == h2 - (h0 + h1) / 2)
            haeb_evals full.
Proof.
  unfold _anisotropy.
  induction 1 as [|h l Hh _ (full & red & Hf & Hr & Hs & Hv)]; simpl.
  - exists [], []. by repeat split; constructor.
  - destruct (length_three h Hh) as (h0 & h1 & h2 & ->).
    rewrite Hf, Hr. simpl.
    eexists (_ :: full), (_ :: red).
    split; [reflexivity|]. split; [reflexivity|].
    split; constructor; try done.
    + lra.
    + exists h0, h1, h2. split; [done|]. lra.
Qed.

Lemma anisotropy_reduced_scaling_witness :
  ∃ full red,
    _anisotropy [[1; 1; -2]] false = Ok full ∧
    _anisotropy [[1; 1; -2]] true = Ok red ∧
    Forall2 (λ x y, x == y * (2 / 3)) red full ∧
    Forall2 (λ h y, ∃ h0 h1 h2, h = [h0; h1; h2] ∧ y == h2 - (h0 + h1) / 2)
            [[1; 1; -2]] full.
Proof.
  apply (anisotropy_reduced_scaling [[1; 1; -2]]).
  repeat constructor.
Defined.

(** ** Span and skew *)

Lemma qmax_cases x y :
  (x <= y ∧ qmax x y = y) ∨ (y < x ∧ qmax x y = x).
Proof.
  unfold qmax. destruct (Qle_bool x y) eqn:E.
  - left. by apply Qle_bool_iff in E.
  - right. by apply Qle_bool_false in E.
Qed.

Lemma qmin_cases x y :
  (x <= y ∧ qmin x y = x) ∨ (y < x ∧ qmin x y = y).
Proof.
  unfold qmin. destruct (Qle_bool x y) eqn:E.
  - left. by apply Qle_bool_iff in E.
  - right. by apply Qle_bool_false in E.
Qed.

Lemma foldl_qmax x l :
  (foldl qmax x l = x ∨ foldl qmax x l ∈ l) ∧
  x <= foldl qmax x l ∧ Forall (λ y, y <= foldl qmax x l) l.
Proof.
  revert x. induction l as [|y l IH]; intros x; simpl.
  - split; [by left|]. split; [lra | constructor].
  - destruct (IH (qmax x y)) as (Hin & Hle & Hall).
    destruct (qmax_cases x y) as [[E Hq]|[E Hq]]; rewrite Hq in *.
    + split; [right; destruct Hin as [->|?];
               [apply list_elem_of_here | by apply list_elem_of_further]|].
      split; [lra|]. by constructor.
    + split; [destruct Hin as [->|?];
               [by left | right; by apply list_elem_of_further]|].
      split; [done|]. constructor; [lra | done].
Qed.

Lemma foldl_qmin x l :
  (foldl qmin x l = x ∨ foldl qmin x l ∈ l) ∧
  foldl qmin x l <= x ∧ Forall (λ y, foldl qmin x l <= y) l.
Proof.
  revert x. induction l as [|y l IH]; intros x; simpl.
  - split; [by left|]. split; [lra | constructor].
  - destruct (IH (qmin x y)) as (Hin & Hle & Hall).
    destruct (qmin_cases x y) as [[E Hq]|[E Hq]]; rewrite Hq in *.
    + split; [destruct Hin as [->|?];
               [by left | right; by apply list_elem_of_further]|].
      split; [done|]. constructor; [lra | done].
    + split; [right; destruct Hin as [->|?];
               [apply list_elem_of_here | by apply list_elem_of_further]|].
      split; [lra|]. by constructor.
Qed.

Lemma np_amax_greatest r :
  r ≠ [] → ∃ m, np_amax r = Ok m ∧ greatest r m.
Proof.
  destruct r as [|x l]; [done|]. intros _. eexists. split; [reflexivity|].
  destruct (foldl_qmax x l) as (Hin & Hle & Hall).
  split; [destruct Hin as [->|?];
          [apply list_elem_of_here | by apply list_elem_of_further]
         | by constructor].
Qed.

Lemma np_amin_least r :
  r ≠ [] → ∃ m, np_amin r = Ok m ∧ least r m.
Proof.
  destruct r as [|x l]; [done|]. intros _. eexists. split; [reflexivity|].
  destruct (foldl_qmin x l) as (Hin & Hle & Hall).
  split; [destruct Hin as [->|?];
          [apply list_elem_of_here | by apply list_elem_of_further]
         | by constructor].
Qed.

Lemma span_row_spec r :
  r ≠ [] →
  ∃ sp mx mn, span_row r = Ok sp ∧ greatest r mx ∧ least r mn ∧
              sp = mx - mn.
Proof.
  intros Hr. unfold span_row.
  destruct (np_amax_greatest r Hr) as (mx & -> & Hmx).
  destruct (np_amin_least r Hr) as (mn & -> & Hmn).
  simpl. by exists (mx - mn), mx, mn.
Qed.

Lemma greatest_unique r r' m m' :
  r ≡ₚ r' → greatest r m → greatest r' m' → m == m'.
Proof.
  intros Hp [Him Hm] [Him' Hm'].
  rewrite Forall_forall in Hm, Hm'.
  assert (m <= m') by (apply Hm'; by rewrite <- Hp).
  assert (m' <= m) by (apply Hm; by rewrite Hp).
  lra.
Qed.

Lemma least_unique r r' m m' :
  r ≡ₚ r' → least r m → least r' m' → m == m'.
Proof.
  intros Hp [Him Hm] [Him' Hm'].
  rewrite Forall_forall in Hm, Hm'.
  assert (m' <= m) by (apply Hm'; by rewrite <- Hp).
  assert (m <= m') by (apply Hm; by rewrite Hp).
  lra.
Qed.





Lemma np_average_triple a b c : np_average [a; b; c] == (a + b + c) / 3.
Proof. unfold np_average. simpl. field. Qed.


Lemma np_median_middle a b c : middle [a; b; c] (np_median [a; b; c]).
Proof.
  exists (nth 0 (np_sort [a; b; c]) 0), (nth 2 (np_sort [a; b; c]) 0).
  unfold np_median, np_sort, sort_key. simpl.
  qle_cases; (split; [solve_Permutation|]); split; lra.
Qed.






(** ** The monad *)

Lemma passes_app t t' : passes (t ++ t') = (passes t + passes t')%nat.
Proof. unfold passes. by rewrite filter_app, length_app. Qed.

Lemma silent_app t t' : silent (t ++ t') = silent t ++ silent t'.
Proof. unfold silent. by rewrite filter_app. Qed.

Lemma printed_app t t' : printed (t ++ t') = printed t ++ printed t'.
Proof. unfold printed. by rewrite filter_app. Qed.

Lemma bind_ret {A B} (a : A) (f : A → M B) i : bind (ret a) f i = f a i.
Proof. unfold bind. simpl. by destruct (f a i). Qed.

Lemma bind_raise {A B} e (f : A → M B) i : bind (raise e) f i = raise e i.
Proof. reflexivity. Qed.

Lemma bind_lift {A B} (r : result A) (f : A → M B) i :
  bind (lift r) f i = match r with Ok a => f a i | Raise e => raise e i end.
Proof. unfold bind. simpl. destruct r; [by destruct (f a i) | done]. Qed.

Lemma bind_emit {B} e (f : unit → M B) i :
  bind (emit e) f i
  = {| returned := returned (f () i); info := info (f () i);
       trace := e :: trace (f () i) |}.
Proof. reflexivity. Qed.

Lemma bind_ok {A B} (m : M A) (f : A → M B) i a :
  returned (m i) = Ok a →
  bind m f i = {| returned := returned (f a (info (m i)));
                  info := info (f a (info (m i)));
                  trace := trace (m i) ++ trace (f a (info (m i))) |}.
Proof. intros E. unfold bind. by rewrite E. Qed.

Lemma bind_fail {A B} (m : M A) (f : A → M B) i e :
  returned (m i) = Raise e →
  bind m f i = {| returned := Raise e; info := info (m i);
                  trace := trace (m i) |}.
Proof. intros E. unfold bind. by rewrite E. Qed.

Lemma bind_assoc {A B C} (m : M A) (f : A → M B) (g : B → M C) i :
  bind (bind m f) g i = bind m (λ a, bind (f a) g) i.
Proof.
  unfold bind. destruct (returned (m i)) as [a|e]; simpl; [|done].
  destruct (returned (f a (info (m i)))); simpl; [|done].
  by rewrite app_assoc.
Qed.

Lemma quiet_ret {A} (a : A) : quiet (ret a).
Proof. by intros i. Qed.

Lemma quiet_raise {A} e : quiet (@raise A e).
Proof. by intros i. Qed.

Lemma quiet_lift {A} (r : result A) : quiet (lift r).
Proof. by intros i. Qed.

Lemma quiet_bind {A B} (m : M A) (f : A → M B) :
  quiet m → (∀ a, quiet (f a)) → quiet (bind m f).
Proof.
  intros Hm Hf i. destruct (Hm i) as [Hi Hp]. unfold bind.
  destruct (returned (m i)) as [a|e]; simpl; [|done].
  destruct (Hf a (info (m i))) as [Hi' Hp'].
  rewrite passes_app, Hp, Hp', Hi'. done.
Qed.

(** A quiet continuation changes neither the store nor the number of
    passes of what runs before it. *)
Lemma bind_quiet {A B} (m : M A) (f : A → M B) i :
  (∀ a, quiet (f a)) →
  info (bind m f i) = info (m i) ∧
  passes (trace (bind m f i)) = passes (trace (m i)).
Proof.
  intros Hf. unfold bind.
  destruct (returned (m i)) as [a|e]; simpl; [|done].
  destruct (Hf a (info (m i))) as [Hi Hp].
  rewrite passes_app, Hp, Hi. by rewrite Nat.add_0_r.
Qed.

Lemma has_efg_check_some {A} (f : Atoms → M A) s batch :
  arrays_efg s = Some batch → _has_efg_check f s = f s.
Proof.
  intros Hs. unfold _has_efg_check. rewrite Hs.
  by rewrite bool_decide_eq_true_2.
Qed.

Lemma has_efg_check_none {A} (f : Atoms → M A) s :
  arrays_efg s = None → _has_efg_check f s = raise no_efg_error.
Proof.
  intros Hs. unfold _has_efg_check. rewrite Hs.
  rewrite bool_decide_eq_false_2; [done|]. by intros [? ?].
Qed.

(** ** The guard of the structure's data *)

(** C9. Every operation of the pipeline, run on a structure without an
    ["efg"] array, raises the error of the missing data at once: the
    store is left as it was and the run has no event at all, so that no
    entry of the store was tested, read or written and nothing was
    diagonalised. *)
Theorem no_efg_fails_first `{Library} (op : operation) (s : Atoms)
    (i : Info) :
  arrays_efg s = None →
  run op s i = {| returned := Raise no_efg_error; info := i; trace := [] |}.
Proof.
  intros Hs.
  destruct op; unfold run, fmapM, EFGDiagonal.extract, EFGVzz.extract,
    EFGAnisotropy.extract, EFGReducedAnisotropy.extract,
    EFGAsymmetry.extract, EFGSpan.extract, EFGSkew.extract,
    EFGQuadrupolarConstant.extract;
    by rewrite (has_efg_check_none _ _ Hs).
Qed.

Lemma no_efg_fails_first_witness :
  run (H := demo_library) (Vzz false)
      {| arrays_efg := None; chemical_symbols := ["H"] |} empty_info
  = {| returned := Raise no_efg_error; info := empty_info; trace := [] |}.
Proof. by apply (no_efg_fails_first (H := demo_library)). Defined.

(** ** One pass of the diagonaliser *)

Lemma permuted_rows_triples {P : list Q → list Q → Prop} rs hs :
  Forall2 (λ r h, r ≡ₚ h ∧ P r h) rs hs →
  Forall (λ r, length r = 3%nat) rs → Forall (λ h, length h = 3%nat) hs.
Proof.
  induction 1 as [|r h rs hs [Hp _] _ IH]; [done|].
  intros Hc. inversion Hc as [|? ? Hr Hrs]; subst.
  constructor; [|by apply IH].
  by rewrite <- (Permutation_length Hp).
Qed.

Section Diagonaliser.
Context `{Library}.

Lemma batch_evals_triples batch :
  Forall (λ r, length r = 3%nat) (batch_evals batch).
Proof.
  unfold batch_evals. apply Forall_fmap, Forall_true. intros efg. simpl.
  by destruct (eigh _) as [[[a b] c] v].
Qed.

Lemma haeb_sort_batch batch :
  ∃ hs, _haeb_sort (batch_evals batch) = Ok hs ∧
        length hs = length batch ∧ Forall (λ h, length h = 3%nat) hs.
Proof.
  destruct (haeb_sort_triples _ (batch_evals_triples batch))
    as (hs & Hhs & Hall).
  exists hs. split; [done|]. split.
  - apply for_each_length in Hhs. rewrite Hhs. unfold batch_evals.
    by rewrite length_map.
  - eapply permuted_rows_triples; [exact Hall | apply batch_evals_triples].
Qed.

Lemma efg_diag_evals batch :
  (map (λ efg, let '(w, v) := eigh (mat_div (mat_add efg (mat_T efg)) 2)
               in (vec3_to_list w, v)) batch).*1 = batch_evals batch.
Proof.
  unfold batch_evals. rewrite <- list_fmap_compose. apply list_fmap_ext.
  intros _ efg _. simpl. by destruct (eigh _).
Qed.

Lemma efg_diag_evecs batch :
  (map (λ efg, let '(w, v) := eigh (mat_div (mat_add efg (mat_T efg)) 2)
               in (vec3_to_list w, v)) batch).*2 = batch_evecs batch.
Proof.
  unfold batch_evecs. rewrite <- list_fmap_compose. apply list_fmap_ext.
  intros _ efg _. simpl. by destruct (eigh _).
Qed.

Lemma bind_unzip {A B C} (d : list (A * B)) (f : _ → M C) i :
  d ≠ [] →
  bind match d with
       | [] => raise ValueError
       | _ => ret (d.*1, d.*2)
       end f i = f (d.*1, d.*2) i.
Proof. destruct d; [done|]. intros _. apply bind_ret. Qed.

Lemma diagonal_get_run s batch i :
  arrays_efg s = Some batch → batch ≠ [] →
  ∃ d hs, _haeb_sort (batch_evals batch) = Ok hs ∧
    EFGDiagonal.get s i
    = {| returned := Ok d; info := stored_entries batch hs;
         trace := [Diagonalise; InfoSet K_evals; InfoSet K_evals_hsort;
                   InfoSet K_evecs] |}.
Proof.
  intros Hs Hne. destruct (haeb_sort_batch batch) as (hs & Hhs & _).
  eexists _, hs. split; [done|].
  unfold EFGDiagonal.get, EFGDiagonal.extract.
  rewrite (has_efg_check_some _ _ _ Hs). unfold get_array_efg.
  rewrite Hs. cbv zeta.
  rewrite bind_ret. unfold bind at 1. simpl.
  rewrite bind_unzip by (by destruct batch).
  rewrite efg_diag_evals, efg_diag_evecs.
  unfold bind. simpl. rewrite Hhs. simpl. reflexivity.
Qed.

Lemma diagonal_get_empty s i :
  arrays_efg s = Some [] →
  EFGDiagonal.get s i
  = {| returned := Raise ValueError; info := i; trace := [Diagonalise] |}.
Proof.
  intros Hs. unfold EFGDiagonal.get, EFGDiagonal.extract.
  rewrite (has_efg_check_some _ _ _ Hs). unfold get_array_efg.
  by rewrite Hs.
Qed.

(** The guard when the entry is in the store and nothing is forced. *)
Lemma ensure_cached key s i :
  info_has i key = true →
  ensure key false s i
  = {| returned := Ok (); info := i; trace := [InfoContains key] |}.
Proof. intros Hk. unfold ensure, bind. simpl. by rewrite Hk. Qed.

(** The guard when the entry is missing or a recalculation is forced. *)
Lemma ensure_fresh key force s batch i :
  arrays_efg s = Some batch → batch ≠ [] →
  info_has i key = false ∨ force = true →
  ∃ hs, _haeb_sort (batch_evals batch) = Ok hs ∧
    ensure key force s i
    = {| returned := Ok (); info := stored_entries batch hs;
         trace := [InfoContains key; Diagonalise; InfoSet K_evals;
                   InfoSet K_evals_hsort; InfoSet K_evecs] |}.
Proof.
  intros Hs Hne Hk.
  destruct (diagonal_get_run s batch i Hs Hne) as (d & hs & Hhs & Hrun).
  exists hs. split; [done|].
  unfold ensure, bind. simpl.
  assert (negb (info_has i key) || force = true) as ->.
  { destruct Hk as [-> | ->]; [done | by rewrite orb_true_r]. }
  by rewrite Hrun.
Qed.

Lemma ensure_passes key force s i :
  (passes (trace (ensure key force s i)) ≤ 1)%nat.
Proof.
  unfold ensure, bind. simpl.
  destruct (negb (info_has i key) || force); simpl; [|by cbv; lia].
  destruct (arrays_efg s) as [batch|] eqn:Hs.
  - destruct batch as [|m batch].
    + rewrite (diagonal_get_empty s i Hs). by cbv; lia.
    + destruct (diagonal_get_run s (m :: batch) i Hs) as (d & hs & _ & ->);
        [done|]. by cbv; lia.
  - unfold EFGDiagonal.get, EFGDiagonal.extract.
    rewrite (has_efg_check_none _ _ Hs). by cbv; lia.
Qed.
End Diagonaliser.

(** ** Memoisation *)

Section Memoisation.
Context `{Library}.

Lemma quiet_info_get_evals : quiet info_get_evals.
Proof. by intros i. Qed.

Lemma quiet_info_get_evals_hsort : quiet info_get_evals_hsort.
Proof. by intros i. Qed.

Lemma quiet_print msg : quiet (emit (Stdout msg)).
Proof. by intros i. Qed.

(** Every outcome of the guard: the entry was there, or the pass
    failed on an empty batch, or the pass wrote the three entries. *)
Lemma ensure_outcome key force s batch i :
  arrays_efg s = Some batch →
  let o := ensure key force s i in
  (returned o = Ok () ∧ info o = i ∧ passes (trace o) = 0%nat) ∨
  (∃ e, returned o = Raise e ∧ (passes (trace o) ≤ 1)%nat) ∨
  (returned o = Ok () ∧ passes (trace o) = 1%nat ∧
   ∃ hs, _haeb_sort (batch_evals batch) = Ok hs ∧
         info o = stored_entries batch hs).
Proof.
  intros Hs o.
  destruct (negb (info_has i key) || force) eqn:Hk.
  - destruct batch as [|m batch].
    + right. left. exists ValueError. subst o. unfold ensure, bind. simpl.
      rewrite Hk, (diagonal_get_empty s i Hs). split; [done | by cbv; lia].
    + right. right.
      destruct (ensure_fresh key force s (m :: batch) i Hs)
        as (hs & Hhs & Hrun); [done| |].
      { apply orb_true_iff in Hk as [Hk|Hk]; [left | by right].
        by apply negb_true_iff. }
      subst o. rewrite Hrun. simpl. split; [done|]. split; [done|].
      by exists hs.
  - left. apply orb_false_iff in Hk as [Hk ->].
    apply negb_false_iff in Hk. subst o.
    by rewrite (ensure_cached key s i Hk).
Qed.

(** An operation that is the guard followed by quiet code. *)
Lemma guarded_run {A} key force (tail : M A) (f : A → value) s batch i :
  arrays_efg s = Some batch → quiet tail →
  let o := fmapM f (_has_efg_check (λ s,
               do _ <- ensure key force s; tail) s) i in
  info o = info (ensure key force s i) ∧
  passes (trace o) = passes (trace (ensure key force s i)).
Proof.
  intros Hs Hq o. subst o. unfold fmapM.
  rewrite (has_efg_check_some _ _ _ Hs).
  destruct (bind_quiet (bind (ensure key force s) (λ _, tail))
              (λ a, ret (f a)) i) as [-> ->]; [intros a; apply quiet_ret|].
  by apply bind_quiet.
Qed.

Lemma quiet_tail_hsort {A} (g : list (list Q) → result A) :
  quiet (do efg_evals <- info_get_evals_hsort; lift (g efg_evals)).
Proof.
  apply quiet_bind; [apply quiet_info_get_evals_hsort|].
  intros a. apply quiet_lift.
Qed.

Lemma quiet_tail_evals {A} (g : list (list Q) → result A) :
  quiet (do efg_evals <- info_get_evals; lift (g efg_evals)).
Proof.
  apply quiet_bind; [apply quiet_info_get_evals|].
  intros a. apply quiet_lift.
Qed.

(** [EFGVzz.get] is the guard on the sorted eigenvalues, never forced,
    followed by quiet code. *)
Lemma vzz_get_guard s batch i :
  arrays_efg s = Some batch →
  info (EFGVzz.get s i) = info (ensure K_evals_hsort false s i) ∧
  passes (trace (EFGVzz.get s i))
  = passes (trace (ensure K_evals_hsort false s i)).
Proof.
  intros Hs. unfold EFGVzz.get, EFGVzz.extract.
  rewrite (has_efg_check_some _ _ _ Hs).
  apply bind_quiet. intros _. apply quiet_tail_hsort.
Qed.

(** The quadrupolar constant after its guard: quiet code, then
    [EFGVzz.get] unless an error came first, then quiet code. *)
Lemma qconst_tail_run s batch use_q isotopes isotope_list i1 :
  arrays_efg s = Some batch →
  let tail :=
    do data <- match _nmr_data with
               | None => raise (RuntimeError
                   ("NMR data not available. Something may be " +:+
                    "wrong with this installation of Soprano"))
               | Some data => ret data
               end;
    let elems := chemical_symbols s in
    do isotope_list <-
      match isotope_list with
      | Some l =>
          if negb (bool_decide (length l = length elems))
          then do _ <- emit (Stdout "WARNING - invalid isotope_list, ignoring");
               ret None
          else ret (Some l)
      | None => ret None
      end;
    do q_list <- lift (Res.for_each
        (EFGQuadrupolarConstant.atom_moment data use_q isotopes
           isotope_list)
        (enumerate elems));
    do vzz <- EFGVzz.get s;
    lift (np_mul (map (Qmult k) q_list) vzz) in
  (info (tail i1) = i1 ∧ passes (trace (tail i1)) = 0%nat) ∨
  (info (tail i1) = info (EFGVzz.get s i1) ∧
   passes (trace (tail i1)) = passes (trace (EFGVzz.get s i1))).
Proof.
  intros Hs tail. subst tail.
  destruct _nmr_data as [data|]; [|by left].
  rewrite bind_ret. cbv zeta.
  assert (Hgo : ∀ il t,
    let rest :=
      do q_list <- lift (Res.for_each
          (EFGQuadrupolarConstant.atom_moment data use_q isotopes il)
          (enumerate (chemical_symbols s)));
      do vzz <- EFGVzz.get s;
      lift (np_mul (map (Qmult k) q_list) vzz) in
    (info (rest i1) = i1 ∧ passes (t ++ trace (rest i1)) = passes t) ∨
    (info (rest i1) = info (EFGVzz.get s i1) ∧
     passes (t ++ trace (rest i1))
     = (passes t + passes (trace (EFGVzz.get s i1)))%nat)).
  { intros il t rest. subst rest. rewrite bind_lift.
    destruct (Res.for_each _ _) as [q_list|e].
    - right.
      destruct (bind_quiet (EFGVzz.get s)
                  (λ vzz, lift (np_mul (map (Qmult k) q_list) vzz)) i1)
        as [-> Hp]; [intros a; apply quiet_lift|].
      by rewrite passes_app, Hp.
    - left. simpl. by rewrite app_nil_r. }
  destruct isotope_list as [l|].
  - destruct (negb (bool_decide (length l = length (chemical_symbols s))));
      cbv iota.
    + rewrite bind_assoc, bind_emit, bind_ret. cbn [info trace].
      destruct (Hgo None [Stdout "WARNING - invalid isotope_list, ignoring"])
        as [[Hi Hp]|[Hi Hp]]; [left | right]; by rewrite Hi.
    + rewrite bind_ret.
      destruct (Hgo (Some l) []) as [[Hi Hp]|[Hi Hp]]; [left | right];
        by rewrite Hi.
  - rewrite bind_ret.
    destruct (Hgo None []) as [[Hi Hp]|[Hi Hp]]; [left | right];
      by rewrite Hi.
Qed.

Lemma stored_has batch hs key : info_has (stored_entries batch hs) key = true.
Proof. by destruct key. Qed.

Lemma simple_memo {A} key force (tail : M A) (f : A → value) s batch i :
  arrays_efg s = Some batch → quiet tail →
  let o := fmapM f (_has_efg_check (λ s,
               do _ <- ensure key force s; tail) s) i in
  (passes (trace o) ≤ 1)%nat ∧
  (info_has i key = true → force = false →
     passes (trace o) = 0%nat ∧ info o = i) ∧
  (batch ≠ [] → info_has i key = false ∨ force = true →
     passes (trace o) = 1%nat ∧
     ∃ hs, _haeb_sort (batch_evals batch) = Ok hs ∧
           info o = stored_entries batch hs).
Proof.
  intros Hs Hq o.
  destruct (guarded_run key force tail f s batch i Hs Hq) as [Hi Hp].
  fold o in Hi, Hp. rewrite Hi, Hp. split; [apply ensure_passes|]. split.
  - intros Hk ->. by rewrite (ensure_cached key s i Hk).
  - intros Hne Hk.
    destruct (ensure_fresh key force s batch i Hs Hne Hk)
      as (hs & Hhs & ->).
    split; [done|]. by exists hs.
Qed.

Lemma qconst_memo s batch force use_q isotopes isotope_list i :
  arrays_efg s = Some batch →
  let o := fmapM Floats (EFGQuadrupolarConstant.extract s force use_q
                           isotopes isotope_list) i in
  (passes (trace o) ≤ 1)%nat ∧
  (info_has i K_evals = true → info_has i K_evals_hsort = true →
   force = false → passes (trace o) = 0%nat ∧ info o = i) ∧
  (batch ≠ [] → info_has i K_evals = false ∨ force = true →
     passes (trace o) = 1%nat ∧
     ∃ hs, _haeb_sort (batch_evals batch) = Ok hs ∧
           info o = stored_entries batch hs).
Proof.
  intros Hs o. subst o. unfold fmapM, EFGQuadrupolarConstant.extract.
  rewrite (has_efg_check_some _ _ _ Hs).
  match goal with
  | |- context [bind (bind (ensure K_evals force s) ?F) ?G i] =>
      destruct (bind_quiet (bind (ensure K_evals force s) F) G i)
        as [-> ->]; [intros a; apply quiet_ret|];
      set (tail := F ())
  end.
  assert (Htail : ∀ i1,
    (info (tail i1) = i1 ∧ passes (trace (tail i1)) = 0%nat) ∨
    (info (tail i1) = info (ensure K_evals_hsort false s i1) ∧
     passes (trace (tail i1))
     = passes (trace (ensure K_evals_hsort false s i1)))).
  { intros i1.
    pose proof (qconst_tail_run s batch use_q isotopes isotope_list i1 Hs)
      as Ht.
    unfold tail. cbv beta zeta in Ht |- *.
    destruct Ht as [?|[Hi Hp]]; [by left | right].
    destruct (vzz_get_guard s batch i1 Hs) as [Hi' Hp'].
    by rewrite Hi, Hp, Hi', Hp'. }
  clearbody tail.
  assert (Hfresh : batch ≠ [] → info_has i K_evals = false ∨ force = true →
    ∃ hs, _haeb_sort (batch_evals batch) = Ok hs ∧
      (ensure K_evals force s i)
      = {| returned := Ok (); info := stored_entries batch hs;
           trace := [InfoContains K_evals; Diagonalise; InfoSet K_evals;
                     InfoSet K_evals_hsort; InfoSet K_evecs] |})
    by (intros; by apply ensure_fresh).
  pose proof (ensure_cached K_evals s i) as Hcached.
  pose proof (ensure_passes K_evals force s i) as Hle.
  destruct (ensure_outcome K_evals force s batch i Hs)
    as [(Hr & Hi & Hp) | [(e & Hr & Hp) | (Hr & Hp & hs & Hhs & Hi)]].
  - rewrite (bind_ok _ _ _ _ Hr). cbn [info trace].
    rewrite passes_app, Hp, Hi. simpl.
    assert (Hnofresh : batch ≠ [] →
              info_has i K_evals = false ∨ force = true → False).
    { intros Hne Hk. destruct (Hfresh Hne Hk) as (hs & _ & E).
      rewrite E in Hp. by cbv in Hp. }
    destruct (Htail i) as [[Hti Htp]|[Hti Htp]]; rewrite Hti, Htp.
    + split; [lia|]. split; [done|]. intros Hne Hk.
      by destruct (Hnofresh Hne Hk).
    + split; [apply ensure_passes|]. split.
      * intros _ Hh _. by rewrite (ensure_cached K_evals_hsort s i Hh).
      * intros Hne Hk. by destruct (Hnofresh Hne Hk).
  - rewrite (bind_fail _ _ _ _ Hr). cbn [info trace].
    split; [done|]. split.
    + intros Hk _ ->. rewrite (Hcached Hk) in Hr. done.
    + intros Hne Hk. destruct (Hfresh Hne Hk) as (hs & _ & E).
      rewrite E in Hr. done.
  - rewrite (bind_ok _ _ _ _ Hr). cbn [info trace].
    rewrite passes_app, Hp, Hi.
    assert (Htp : info (tail (stored_entries batch hs))
                  = stored_entries batch hs ∧
                  passes (trace (tail (stored_entries batch hs))) = 0%nat).
    { destruct (Htail (stored_entries batch hs)) as [?|[Hti Htp]]; [done|].
      rewrite Hti, Htp.
      by rewrite (ensure_cached K_evals_hsort s _
                    (stored_has batch hs K_evals_hsort)). }
    destruct Htp as [-> ->]. split; [done|]. split.
    + intros Hk _ ->. rewrite (Hcached Hk) in Hp. by cbv in Hp.
    + intros _ _. split; [done|]. by exists hs.
Qed.
End Memoisation.

(** The three facts of memoisation for every derived quantity. *)
Lemma derived_memo `{Library} (op : operation) (s : Atoms)
    (batch : list mat3) (i : Info) :
  derived op = true → arrays_efg s = Some batch →
  let o := run op s i in
  (passes (trace o) ≤ 1)%nat ∧
  (Forall (λ key, info_has i key = true) (read_keys op) →
   forced op = false → passes (trace o) = 0%nat ∧ info o = i) ∧
  (batch ≠ [] → info_has i (tested_key op) = false ∨ forced op = true →
   passes (trace o) = 1%nat ∧
   ∃ hs, _haeb_sort (batch_evals batch) = Ok hs ∧
         info o = stored_entries batch hs).
Proof.
  intros Hd Hs o. subst o.
  destruct op as [?|f|f|f|f|f|f|f use_q isotopes isotope_list];
    try discriminate Hd; simpl read_keys; simpl tested_key; simpl forced.
  - destruct (simple_memo K_evals_hsort f _ Floats s batch i Hs
                (quiet_tail_hsort (Res.for_each item_last)))
      as (H1 & H2 & H3).
    split; [exact H1|]. split; [|exact H3].
    intros Hk%Forall_cons_1 Hf. apply H2; [apply Hk | exact Hf].
  - destruct (simple_memo K_evals_hsort f _ Floats s batch i Hs
                (quiet_tail_hsort (λ ev, _anisotropy ev false)))
      as (H1 & H2 & H3).
    split; [exact H1|]. split; [|exact H3].
    intros Hk%Forall_cons_1 Hf. apply H2; [apply Hk | exact Hf].
  - destruct (simple_memo K_evals_hsort f _ Floats s batch i Hs
                (quiet_tail_hsort (λ ev, _anisotropy ev true)))
      as (H1 & H2 & H3).
    split; [exact H1|]. split; [|exact H3].
    intros Hk%Forall_cons_1 Hf. apply H2; [apply Hk | exact Hf].
  - destruct (simple_memo K_evals_hsort f _ XFloats s batch i Hs
                (quiet_tail_hsort _asymmetry))
      as (H1 & H2 & H3).
    split; [exact H1|]. split; [|exact H3].
    intros Hk%Forall_cons_1 Hf. apply H2; [apply Hk | exact Hf].
  - destruct (simple_memo K_evals f _ Floats s batch i Hs
                (quiet_tail_evals _span))
      as (H1 & H2 & H3).
    split; [exact H1|]. split; [|exact H3].
    intros Hk%Forall_cons_1 Hf. apply H2; [apply Hk | exact Hf].
  - destruct (simple_memo K_evals f _ XFloats s batch i Hs
                (quiet_tail_evals _skew))
      as (H1 & H2 & H3).
    split; [exact H1|]. split; [|exact H3].
    intros Hk%Forall_cons_1 Hf. apply H2; [apply Hk | exact Hf].
  - destruct (qconst_memo s batch f use_q isotopes isotope_list i Hs)
      as (H1 & H2 & H3).
    split; [exact H1|]. split; [|exact H3].
    intros Hk Hf. inversion Hk as [|? ? Hk1 Hk2]; subst.
    inversion Hk2; subst. by apply H2.
Qed.

(** A store in which the two eigenvalue entries are present or absent
    together, as in every store that only the pipeline has written. *)
Lemma memoised_on_coherent_store `{Library} (op : operation) (s : Atoms)
    (batch : list mat3) (i : Info) :
  derived op = true → arrays_efg s = Some batch → batch ≠ [] →
  coherent i →
  let o := run op s i in
  coherent (info o) ∧
  if info_has i (tested_key op) && negb (forced op)
  then passes (trace o) = 0%nat ∧ info o = i
  else passes (trace o) = 1%nat ∧
       ∃ hs, _haeb_sort (batch_evals batch) = Ok hs ∧
             info o = stored_entries batch hs.
Proof.
  intros Hd Hs Hne Hco o.
  destruct (derived_memo op s batch i Hd Hs) as (_ & Hcached & Hfresh).
  fold o in Hcached, Hfresh.
  destruct (info_has i (tested_key op)) eqn:Hk;
    [destruct (forced op) eqn:Hf|]; simpl.
  - destruct (Hfresh Hne (or_intror eq_refl)) as (Hp & hs & Hhs & Hi).
    split; [by rewrite Hi|]. split; [done|]. by exists hs.
  - destruct Hcached as [Hp Hi]; [|done|by rewrite Hi].
    destruct op; try discriminate Hd; simpl in Hk |- *;
      repeat constructor; try done.
    unfold coherent in Hco. by rewrite <- Hco.
  - destruct (Hfresh Hne (or_introl eq_refl)) as (Hp & hs & Hhs & Hi).
    split; [by rewrite Hi|]. split; [done|]. by exists hs.
Qed.




(** ** The per-atom isotope list *)

Lemma mute_ret {A} (a : A) : mute (ret a).
Proof. by intros i. Qed.

Lemma mute_raise {A} e : mute (@raise A e).
Proof. by intros i. Qed.

Lemma mute_lift {A} (r : result A) : mute (lift r).
Proof. by intros i. Qed.

Lemma mute_bind {A B} (m : M A) (f : A → M B) :
  mute m → (∀ a, mute (f a)) → mute (bind m f).
Proof.
  intros Hm Hf i. unfold bind.
  destruct (returned (m i)) as [a|e]; simpl; [|apply Hm].
  by rewrite printed_app, Hm, Hf.
Qed.

Section IsotopeList.
Context `{Library}.

Lemma mute_diagonal_get s : mute (EFGDiagonal.get s).
Proof.
  unfold EFGDiagonal.get, EFGDiagonal.extract, _has_efg_check.
  destruct (bool_decide _); [|apply mute_raise].
  apply mute_bind.
  { unfold get_array_efg. destruct (arrays_efg s);
      [apply mute_ret | apply mute_raise]. }
  intros efgs. apply mute_bind; [by intros i|]. intros _. cbv zeta.
  apply mute_bind.
  { destruct (map _ efgs); [apply mute_raise | apply mute_ret]. }
  intros [efg_evals efg_evecs]. apply mute_bind; [|intros; apply mute_ret].
  apply mute_bind; [by intros i|]. intros _.
  apply mute_bind; [apply mute_lift|]. intros hsort.
  apply mute_bind; [by intros i|]. by intros _ i.
Qed.

Lemma mute_ensure key force s : mute (ensure key force s).
Proof.
  unfold ensure. apply mute_bind; [by intros i|]. intros present.
  destruct (negb present || force); [|apply mute_ret].
  apply mute_bind; [apply mute_diagonal_get|]. intros; apply mute_ret.
Qed.

Lemma mute_vzz_get s : mute (EFGVzz.get s).
Proof.
  unfold EFGVzz.get, EFGVzz.extract, _has_efg_check.
  destruct (bool_decide _); [|apply mute_raise].
  apply mute_bind; [apply mute_ensure|]. intros _.
  apply mute_bind; [by intros i|]. intros; apply mute_lift.
Qed.

(** An index of [enumerate] is within the list. *)
Lemma enumerate_index {A} (l : list A) j x :
  (j, x) ∈ enumerate l → (j < length l)%nat.
Proof.
  unfold enumerate. intros Hin%elem_of_zip_l.
  apply elem_of_seq in Hin. lia.
Qed.

(** The list, once it has the length of the structure, changes nothing
    in the body of the loop: what it assigns to [iso] is assigned again
    before [iso] is used. *)
Lemma select_isotope_list_unused de use_q isotopes l j e :
  (j < length l)%nat →
  EFGQuadrupolarConstant.select_isotope de use_q isotopes (Some l) j e
  = EFGQuadrupolarConstant.select_isotope de use_q isotopes None j e.
Proof.
  intros Hj. unfold EFGQuadrupolarConstant.select_isotope, item.
  destruct (lookup_lt_is_Some_2 l j Hj) as [v ->]. reflexivity.
Qed.

Lemma atom_moments_list_unused data use_q isotopes l elems :
  length l = length elems →
  Res.for_each (EFGQuadrupolarConstant.atom_moment data use_q isotopes
                  (Some l)) (enumerate elems)
  = Res.for_each (EFGQuadrupolarConstant.atom_moment data use_q isotopes
                    None) (enumerate elems).
Proof.
  intros Hlen. apply for_each_ext. apply Forall_forall.
  intros [j e] Hin%enumerate_index.
  unfold EFGQuadrupolarConstant.atom_moment.
  destruct (data !! e) as [de|]; [|done].
  rewrite select_isotope_list_unused; [done | by rewrite Hlen].
Qed.

(** The run of the quadrupolar constant, with the list set apart: the
    same result, store and events for every list, but for the warning
    in the middle of the events. *)
Lemma qconst_list_shape s force use_q isotopes i :
  ∃ r i' pre post, printed pre = [] ∧ printed post = [] ∧
    ∀ isotope_list, ∃ tr,
      (tr = [] ∨
       tr = [warning] ∧
       ∃ l, isotope_list = Some l ∧
            length l ≠ length (chemical_symbols s)) ∧
      EFGQuadrupolarConstant.extract s force use_q isotopes isotope_list i
      = {| returned := r; info := i'; trace := pre ++ tr ++ post |}.
Proof.
  unfold EFGQuadrupolarConstant.extract.
  destruct (arrays_efg s) as [batch|] eqn:Hs.
  2: { exists (Raise no_efg_error), i, [], []. do 2 (split; [done|]).
       intros il. exists []. split; [by left|].
       by rewrite (has_efg_check_none _ _ Hs). }
  pose proof (mute_ensure K_evals force s i) as Hmute.
  destruct (returned (ensure K_evals force s i)) as [[]|e] eqn:Hr.
  2: { exists (Raise e), (info (ensure K_evals force s i)),
         (trace (ensure K_evals force s i)), [].
       do 2 (split; [done|]). intros il. exists []. split; [by left|].
       rewrite (has_efg_check_some _ _ _ Hs).
       rewrite (bind_fail _ _ _ _ Hr). by rewrite !app_nil_r. }
  set (i1 := info (ensure K_evals force s i)).
  destruct _nmr_data as [data|] eqn:Hdata.
  2: { eexists (Raise _), i1, (trace (ensure K_evals force s i)), [].
       do 2 (split; [done|]). intros il. exists []. split; [by left|].
       rewrite (has_efg_check_some _ _ _ Hs).
       rewrite (bind_ok _ _ _ _ Hr). by rewrite bind_raise. }
  set (rest :=
    do q_list <- lift (Res.for_each
        (EFGQuadrupolarConstant.atom_moment data use_q isotopes None)
        (enumerate (chemical_symbols s)));
    do vzz <- EFGVzz.get s;
    lift (np_mul (map (Qmult k) q_list) vzz)).
  assert (Hrest : printed (trace (rest i1)) = []).
  { apply mute_bind; [apply mute_lift|]. intros q.
    apply mute_bind; [apply mute_vzz_get|]. intros; apply mute_lift. }
  exists (returned (rest i1)), (info (rest i1)),
    (trace (ensure K_evals force s i)), (trace (rest i1)).
  do 2 (split; [done|]). intros il.
  rewrite (has_efg_check_some _ _ _ Hs).
  rewrite (bind_ok _ _ _ _ Hr). fold i1. rewrite bind_ret. cbv zeta.
  destruct il as [l|].
  - destruct (bool_decide (length l = length (chemical_symbols s)))
      eqn:Hlen; cbv iota beta delta [negb].
    + apply bool_decide_eq_true_1 in Hlen.
      exists []. split; [by left|]. rewrite bind_ret.
      by rewrite (atom_moments_list_unused _ _ _ _ _ Hlen).
    + apply bool_decide_eq_false_1 in Hlen.
      exists [warning]. split; [right; split; [done|]; by exists l|].
      rewrite bind_assoc, bind_emit, bind_ret. reflexivity.
  - exists []. split; [by left|]. by rewrite bind_ret.
Qed.
End IsotopeList.

(** C10. The quadrupolar constant does not depend on [isotope_list]: for
    any two values of it, all else equal, the result (array or error) is
    the same, the store is left the same and the events other than what
    is printed are the same. What a run prints is nothing, or the one
    warning, and the warning only for a list of the wrong length. *)
Theorem isotope_list_ignored `{Library} (s : Atoms)
    (force_recalc use_q_isotopes : bool) (isotopes : gmap string pyval)
    (list1 list2 : option (list pyval)) (i : Info) :
  let o1 := EFGQuadrupolarConstant.extract s force_recalc use_q_isotopes
              isotopes list1 i in
  let o2 := EFGQuadrupolarConstant.extract s force_recalc use_q_isotopes
              isotopes list2 i in
  returned o1 = returned o2 ∧
  info o1 = info o2 ∧
  silent (trace o1) = silent (trace o2) ∧
  (printed (trace o1) = [] ∨
   printed (trace o1) = [warning] ∧
   ∃ l, list1 = Some l ∧ length l ≠ length (chemical_symbols s)).
Proof.
  intros o1 o2. subst o1 o2.
  destruct (qconst_list_shape s force_recalc use_q_isotopes isotopes i)
    as (r & i' & pre & post & Hpre & Hpost & Hshape).
  destruct (Hshape list1) as (tr1 & Htr1 & ->).
  destruct (Hshape list2) as (tr2 & Htr2 & ->).
  cbn [returned info trace]. split; [done|]. split; [done|]. split.
  - rewrite !silent_app. f_equal. f_equal.
    destruct Htr1 as [->|[-> _]], Htr2 as [->|[-> _]]; reflexivity.
  - rewrite !printed_app, Hpre, Hpost.
    destruct Htr1 as [->|[-> Hl]]; [by left | by right].
Qed.

(** ** The quadrupolar constant *)

Lemma for_each_app {A B} (f : A → result B) l1 l2 :
  Res.for_each f (l1 ++ l2)
  = (let? a := Res.for_each f l1 in
     let? b := Res.for_each f l2 in Ok (a ++ b)).
Proof.
  induction l1 as [|x l1 IH]; simpl.
  - by destruct (Res.for_each f l2).
  - destruct (f x); [|done]. simpl. rewrite IH.
    destruct (Res.for_each f l1); [|done]. simpl.
    by destruct (Res.for_each f l2).
Qed.

Lemma enumerate_app {A} (l1 l2 : list A) :
  enumerate (l1 ++ l2)
  = enumerate l1 ++ zip (seq (length l1) (length l2)) l2.
Proof.
  unfold enumerate. rewrite length_app, seq_app.
  rewrite zip_with_app; [done|]. by rewrite length_seq.
Qed.

Section QuadrupolarConstant.
Context `{Library}.

Lemma ensure_ok key force s batch i :
  arrays_efg s = Some batch → batch ≠ [] →
  returned (ensure key force s i) = Ok ().
Proof.
  intros Hs Hne. unfold ensure, bind. simpl.
  destruct (negb (info_has i key) || force); [|done].
  by destruct (diagonal_get_run s batch i Hs Hne) as (d & hs & _ & ->).
Qed.



(** The quadrupolar constant in terms of its parts, on a structure
    with data and with the dataset loaded. *)
Lemma qconst_run s batch data force use_q isotopes isotope_list i :
  arrays_efg s = Some batch → batch ≠ [] → _nmr_data = Some data →
  let o := EFGQuadrupolarConstant.extract s force use_q isotopes
             isotope_list i in
  let i1 := info (ensure K_evals force s i) in
  let moments := Res.for_each
    (EFGQuadrupolarConstant.atom_moment data use_q isotopes None)
    (enumerate (chemical_symbols s)) in
  returned o = (let? q_list := moments in
                let? vzz := returned (EFGVzz.get s i1) in
                np_mul (map (Qmult k) q_list) vzz) ∧
  info o = match moments with
           | Ok _ => info (EFGVzz.get s i1)
           | Raise _ => i1
           end.
Proof.
  intros Hs Hne Hdata o i1 moments.
  destruct (qconst_list_shape s force use_q isotopes i)
    as (r & i' & pre & post & _ & _ & Hshape).
  destruct (Hshape isotope_list) as (tr & _ & Ho).
  destruct (Hshape None) as (tr0 & _ & Ho0).
  subst o. rewrite Ho. cbn [returned info].
  assert (Hr : r = returned (EFGQuadrupolarConstant.extract s force use_q
                               isotopes None i)) by by rewrite Ho0.
  assert (Hi : i' = info (EFGQuadrupolarConstant.extract s force use_q
                            isotopes None i)) by by rewrite Ho0.
  rewrite Hr, Hi. clear Hr Hi Ho Ho0 Hshape.
  unfold EFGQuadrupolarConstant.extract.
  rewrite (has_efg_check_some _ _ _ Hs).
  rewrite (bind_ok _ _ _ _ (ensure_ok K_evals force s batch i Hs Hne)).
  fold i1. cbn [returned info]. rewrite Hdata, !bind_ret. cbv zeta.
  rewrite bind_lift. fold moments.
  destruct moments as [q_list|e]; [|done]. simpl.
  unfold bind. by destruct (returned (EFGVzz.get s i1)).
Qed.

Lemma resolves_to_moment data use_q isotopes e q j :
  resolves_to data use_q isotopes e q →
  EFGQuadrupolarConstant.atom_moment data use_q isotopes None (j, e)
  = Ok q.
Proof.
  intros (de & iso & Hde & Hiso & Hq).
  unfold EFGQuadrupolarConstant.atom_moment. rewrite Hde.
  unfold EFGQuadrupolarConstant.select_isotope in *. simpl in *.
  rewrite Hiso. simpl.
  unfold EFGQuadrupolarConstant.isotope_moment. by rewrite Hq.
Qed.

Lemma atom_moments_resolved data use_q isotopes elems qs a :
  Forall2 (resolves_to data use_q isotopes) elems qs →
  Res.for_each (EFGQuadrupolarConstant.atom_moment data use_q isotopes
                  None) (zip (seq a (length elems)) elems) = Ok qs.
Proof.
  intros Hall. revert a.
  induction Hall as [|e q elems qs He _ IH]; intros a; [done|].
  change (zip (seq a (length (e :: elems))) (e :: elems))
    with ((a, e) :: zip (seq (S a) (length elems)) elems).
  cbn [Res.for_each].
  by rewrite (resolves_to_moment _ _ _ _ _ a He), IH.
Qed.

Lemma atom_moment_absent data use_q isotopes il j e :
  data !! e = None →
  EFGQuadrupolarConstant.atom_moment data use_q isotopes il (j, e)
  = Raise (no_element_error e).
Proof.
  intros He. unfold EFGQuadrupolarConstant.atom_moment. by rewrite He.
Qed.
End QuadrupolarConstant.

(** C8 (amended). On a structure with its EFG data and with the dataset
    loaded, an atom whose element is absent from the dataset aborts the
    quadrupolar constant: an error is raised and no constant is returned
    for any atom, whatever the other atoms are. The error is the one of
    the atoms before it when one of them fails, and the error of the
    absent element, naming it, when all of them resolve. *)
Theorem absent_element_aborts `{Library} (s : Atoms) (batch : list mat3)
    (data : gmap string elem_data) (force_recalc use_q_isotopes : bool)
    (isotopes : gmap string pyval) (isotope_list : option (list pyval))
    (i : Info) (before after : list string) (e : string) :
  _nmr_data = Some data →
  arrays_efg s = Some batch →
  length batch = length (chemical_symbols s) →
  chemical_symbols s = before ++ e :: after →
  data !! e = None →
  let o := EFGQuadrupolarConstant.extract s force_recalc use_q_isotopes
             isotopes isotope_list i in
  (∃ err, returned o = Raise err) ∧
  returned o
  = match Res.for_each
            (EFGQuadrupolarConstant.atom_moment data use_q_isotopes
               isotopes None) (enumerate before) with
    | Ok _ => Raise (no_element_error e)
    | Raise err => Raise err
    end ∧
  (Forall (λ x, ∃ q, resolves_to data use_q_isotopes isotopes x q) before →
   returned o = Raise (no_element_error e)).
Proof.
  intros Hdata Hs Hlen Helems He o.
  assert (Hne : batch ≠ []).
  { intros ->. rewrite Helems, length_app in Hlen. simpl in Hlen. lia. }
  destruct (qconst_run s batch data force_recalc use_q_isotopes isotopes
              isotope_list i Hs Hne Hdata) as [Hr _].
  fold o in Hr.
  assert (Hret : returned o
    = match Res.for_each
              (EFGQuadrupolarConstant.atom_moment data use_q_isotopes
                 isotopes None) (enumerate before) with
      | Ok _ => Raise (no_element_error e)
      | Raise err => Raise err
      end).
  { rewrite Hr, Helems, enumerate_app, for_each_app.
    destruct (Res.for_each _ (enumerate before)); [|done].
    change (zip (seq (length before) (length (e :: after))) (e :: after))
      with ((length before, e)
              :: zip (seq (S (length before)) (length after)) after).
    cbn [Res.for_each Res.bind]. by rewrite atom_moment_absent. }
  split; [|split; [exact Hret|]].
  - rewrite Hret. destruct (Res.for_each _ (enumerate before)); by eexists.
  - intros Hall. rewrite Hret.
    assert (∃ qs, Forall2 (resolves_to data use_q_isotopes isotopes)
                    before qs) as [qs Hqs].
    { clear -Hall. induction Hall as [|x l [q Hq] _ [qs IH]].
      - by exists [].
      - exists (q :: qs). by constructor. }
    unfold enumerate. by rewrite (atom_moments_resolved _ _ _ _ _ 0%nat Hqs).
Qed.

Lemma absent_element_aborts_witness :
  let o := EFGQuadrupolarConstant.extract (H := demo_library)
             hydrogen_and_unknown false false ∅ None empty_info in
  (∃ err, returned o = Raise err) ∧
  returned o
  = match Res.for_each
            (EFGQuadrupolarConstant.atom_moment demo_data false ∅ None)
            (enumerate ["H"]) with
    | Ok _ => Raise (no_element_error "X")
    | Raise err => Raise err
    end ∧
  (Forall (λ x, ∃ q, resolves_to demo_data false ∅ x q) ["H"] →
   returned o = Raise (no_element_error "X")).
Proof.
  apply (absent_element_aborts (H := demo_library) hydrogen_and_unknown
           [diag 1 (-2) 1; diag 2 (-1) (-1)] demo_data false false ∅ None
           empty_info ["H"] [] "X"); reflexivity.
Defined.

(** C8 as stated fails: with a hydrogen atom that is given an isotope
    without record, followed by an atom of an element absent from the
    dataset, the error raised is the one of the isotope of hydrogen, and
    not the one of an absent element. *)
Lemma absent_element_not_always_reported : ¬ absent_element_always_reported.
Proof.
  intros Hc.
  destruct (Hc demo_library hydrogen_and_unknown
              [diag 1 (-2) 1; diag 2 (-1) (-1)] demo_data false false
              {[ "H" := PStr "99" ]} None empty_info "X"
              eq_refl eq_refl eq_refl) as (e' & _ & _ & Hret).
  - apply list_elem_of_further, list_elem_of_here.
  - reflexivity.
  - vm_compute in Hret. discriminate Hret.
Qed.

(** ** Span and skew in the pipeline *)

Section RawEigenvalues.
Context `{Library}.

End RawEigenvalues.



(** ** The precedence of the isotope overrides *)

(** C1 (code at the failing input). Hydrogen with the mapping
    [{"H": "2"}] and the per-atom list [["3"]]: the class documents that
    the entry of the list overrides everything else, which gives "3";
    the loop assigns "3" to [iso] and then assigns "2" over it. *)
Theorem list_entry_loses_to_mapping :
  documented_isotope demo_hydrogen false {[ "H" := PStr "2" ]}
    (Some [PStr "3"]) 0 "H" = PStr "3" ∧
  EFGQuadrupolarConstant.select_isotope demo_hydrogen false
    {[ "H" := PStr "2" ]} (Some [PStr "3"]) 0 "H" = Ok (PStr "2") ∧
  returned (EFGQuadrupolarConstant.extract (H := demo_library) one_hydrogen
              false false {[ "H" := PStr "2" ]} (Some [PStr "3"]) empty_info)
  = returned (EFGQuadrupolarConstant.extract (H := demo_library)
                one_hydrogen false false {[ "H" := PStr "2" ]} None
                empty_info).
Proof. by vm_compute. Qed.

(** C7 (code at the failing input). Hydrogen with the per-atom list
    [["99"]] and no mapping: the isotope that the list selects has no
    record for hydrogen, and the call returns an array all the same,
    computed with the default isotope. Besides, with the mapping
    [{"H": "iso"}] the isotope has no record either, and the error is a
    [TypeError] in place of the error of the missing isotope. *)
Theorem list_isotope_without_record_accepted :
  documented_isotope demo_hydrogen false ∅ (Some [PStr "99"]) 0 "H"
  = PStr "99" ∧
  elem_getitem demo_hydrogen (py_str (PStr "99")) = None ∧
  EFGQuadrupolarConstant.select_isotope demo_hydrogen false ∅
    (Some [PStr "99"]) 0 "H" = Ok (PInt 1) ∧
  is_ok (returned (EFGQuadrupolarConstant.extract (H := demo_library)
                     one_hydrogen false false ∅ (Some [PStr "99"])
                     empty_info)) = true ∧
  returned (EFGQuadrupolarConstant.extract (H := demo_library)
              one_hydrogen false false {[ "H" := PStr "iso" ]} None
              empty_info) = Raise TypeError.
Proof. by vm_compute. Qed.

(** ** The value of the quadrupolar constant *)



Section Value.
Context `{Library}.

End Value.



(** ** Isotopes without a record *)

Section MissingIsotope.
Context `{Library}.

(** Without a list the loop selects what the class documents. *)
Lemma select_isotope_documented de use_q isotopes j e :
  EFGQuadrupolarConstant.select_isotope de use_q isotopes None j e
  = Ok (documented_isotope de use_q isotopes None j e).
Proof.
  unfold EFGQuadrupolarConstant.select_isotope, documented_isotope. simpl.
  destruct (isotopes !! e); [done|].
  by destruct (use_q && negb (is_None (d_Q_iso de))).
Qed.

(** An isotope taken from the mapping, from the most quadrupole-active
marker or from the default, and without an entry for the element, aborts
the call with the error of the missing isotope, unless an atom before it
fails first. *)
Lemma missing_isotope_aborts s batch data force use_q isotopes
    isotope_list i before after e de :
  _nmr_data = Some data →
  arrays_efg s = Some batch →
  length batch = length (chemical_symbols s) →
  chemical_symbols s = before ++ e :: after →
  data !! e = Some de →
  let iso := documented_isotope de use_q isotopes None (length before) e in
  elem_getitem de (py_str iso) = None →
  Forall (λ x, ∃ q, resolves_to data use_q isotopes x q) before →
  returned (EFGQuadrupolarConstant.extract s force use_q isotopes
              isotope_list i) = Raise (no_isotope_error iso e).
Proof.
  intros Hdata Hs Hlen Helems He iso Hnone Hall.
  assert (Hne : batch ≠ []).
  { intros ->. rewrite Helems, length_app in Hlen. simpl in Hlen. lia. }
  destruct (qconst_run s batch data force use_q isotopes isotope_list i
              Hs Hne Hdata) as [-> _].
  assert (∃ qs, Forall2 (resolves_to data use_q isotopes) before qs)
    as [qs Hqs].
  { clear -Hall. induction Hall as [|x l [q Hq] _ [qs IH]].
    - by exists [].
    - exists (q :: qs). by constructor. }
  rewrite Helems, enumerate_app, for_each_app.
  unfold enumerate at 1. rewrite (atom_moments_resolved _ _ _ _ _ 0%nat Hqs).
  change (zip (seq (length before) (length (e :: after))) (e :: after))
    with ((length before, e)
            :: zip (seq (S (length before)) (length after)) after).
  cbn [Res.for_each Res.bind].
  unfold EFGQuadrupolarConstant.atom_moment at 1. rewrite He.
  rewrite select_isotope_documented. cbn [Res.bind]. fold iso.
  unfold EFGQuadrupolarConstant.isotope_moment. by rewrite Hnone.
Qed.

(** The two markers of an element's entry are keys of the same mapping
as the isotopes: selecting one of them as an isotope is not a missing
key, and subscripting it is a [TypeError]. *)
Lemma marker_key_type_error de e :
  EFGQuadrupolarConstant.isotope_moment de (PStr "iso") e = Raise TypeError ∧
  EFGQuadrupolarConstant.isotope_moment de (PStr "Q_iso") e
  = Raise TypeError.
Proof. by split. Qed.
End MissingIsotope.

(** ** Examples *)

Example key_names :
  key_name K_evals = EFGDiagonal.default_name +:+ "_evals" ∧
  key_name K_evals_hsort = EFGDiagonal.default_name +:+ "_evals_hsort" ∧
  key_name K_evecs = EFGDiagonal.default_name +:+ "_evecs".
Proof. by repeat split. Qed.

Example haeb_sort_example :
  _haeb_sort [[-2; 1; 1]] = Ok [[1; 1; -2]].
Proof. reflexivity. Qed.

Example anisotropy_example :
  _anisotropy [[1; 1; -2]] false = Ok [(-2 - (1 + 1) / 2) * 1].
Proof. reflexivity. Qed.

Example asymmetry_example :
  ∃ x, _asymmetry [[1; 1; -2]] = Ok [Fin x] ∧ x == 0.
Proof. eexists. split; [reflexivity | reflexivity]. Qed.

Example asymmetry_isotropic_example : _asymmetry [[1; 1; 1]] = Ok [Nan].
Proof. reflexivity. Qed.

Example span_example : ∃ x, _span [[-2; 1; 1]] = Ok [x] ∧ x == 3.
Proof. eexists. split; reflexivity. Qed.

Example skew_example :
  ∃ x, _skew [[-2; 1; 1]] = Ok [Fin x] ∧ x == 1.
Proof. eexists. split; reflexivity. Qed.

(** The scenario of a single atom with the tensor diag(1, -2, 1): the
eigenvalues are -2, 1, 1, their Haeberlen order puts -2 last, the
anisotropy is -3 and the major component -2. *)
Example one_hydrogen_anisotropy :
  ∃ x, returned (EFGAnisotropy.extract (H := demo_library) one_hydrogen
                   false empty_info) = Ok [x] ∧ x == -3.
Proof. eexists. split; [by vm_compute | reflexivity]. Qed.

Example one_hydrogen_vzz :
  ∃ x, returned (EFGVzz.extract (H := demo_library) one_hydrogen
                   false empty_info) = Ok [x] ∧ x == -2.
Proof. eexists. split; [by vm_compute | reflexivity]. Qed.

(** Deuterium on that atom: the constant is k Q Vzz. *)
Example one_hydrogen_qconst :
  ∃ x, returned (EFGQuadrupolarConstant.extract (H := demo_library)
                   one_hydrogen false true ∅ None empty_info) = Ok [x] ∧
       x == (5 # 2) * (286 # 100) * -2.
Proof. eexists. split; [by vm_compute | reflexivity]. Qed.

(** A list of the wrong length is ignored with a warning. *)
Example wrong_length_list_warns :
  printed (trace (EFGQuadrupolarConstant.extract (H := demo_library)
                    one_hydrogen false false ∅ (Some []) empty_info))
  = [warning].
Proof. by vm_compute. Qed.

(** * Further properties *)

(** ** The invariants of a Haeberlen-sorted triplet *)


Lemma qsum_perm l l' : l ≡ₚ l' → qsum l == qsum l'.
Proof.
  induction 1 as [|x l l' _ IH|x y l|l l' l'' _ IH1 _ IH2]; simpl.
  - reflexivity.
  - by rewrite IH.
  - ring.
  - by rewrite IH1.
Qed.

Lemma np_average_perm l l' : l ≡ₚ l' → np_average l == np_average l'.
Proof.
  intros Hp. unfold np_average.
  by rewrite (qsum_perm _ _ Hp), (Permutation_length Hp).
Qed.










Lemma for_each_total {A B} (f : A → result B) l :
  Forall (λ x, ∃ y, f x = Ok y) l → ∃ ys, Res.for_each f l = Ok ys.
Proof.
  intros Hall.
  destruct (for_each_Forall2 f (λ _ _, True) l) as (ys & Hys & _);
    [|by exists ys].
  eapply Forall_impl; [exact Hall|]. intros x [y Hy]. by exists y.
Qed.




(** ** Re-sorting, span and skew *)




Lemma np_div_bounded n d :
  0 < d → - d <= n → n <= d →
  ∃ q, np_div n d = Fin q ∧ -1 <= q ∧ q <= 1.
Proof.
  intros Hd Hlo Hhi. unfold np_div.
  destruct (Qeq_bool d 0) eqn:E; [apply Qeq_bool_eq in E; lra|].
  eexists. split; [reflexivity|]. split.
  - apply Qle_shift_div_l; [done|]. lra.
  - apply Qle_shift_div_r; [done|]. lra.
Qed.

(** Span and skew of one triplet, through its sorted form. *)
Lemma span_skew_triple a b c :
  ∃ s x, span_row [a; b; c] = Ok s ∧ skew_row [a; b; c] = Ok x ∧
    0 <= s ∧
    (s == 0 ↔ constant_row (np_average [a; b; c]) [a; b; c]) ∧
    within (-1) 1 (s == 0) x.
Proof.
  destruct (span_row_spec [a; b; c]) as (s & mx & mn & Hs & Hmx & Hmn & ->);
    [done|].
  destruct (np_median_middle a b c) as (lo & hi & Hp & Hlo & Hhi).
  set (med := np_median [a; b; c]) in *.
  assert (Hmx' : mx == hi).
  { apply (greatest_unique _ _ _ _ Hp Hmx). split.
    - do 2 apply list_elem_of_further. apply list_elem_of_here.
    - repeat constructor; lra. }
  assert (Hmn' : mn == lo).
  { apply (least_unique _ _ _ _ Hp Hmn). split.
    - apply list_elem_of_here.
    - repeat constructor; lra. }
  assert (Havg : 3 * np_average [a; b; c] == lo + med + hi).
  { rewrite (np_average_perm _ _ Hp), np_average_triple. field. }
  unfold skew_row. rewrite Hs. cbn [Res.bind]. fold med.
  set (iso := np_average [a; b; c]) in *. clearbody iso med.
  eexists _, _. split; [reflexivity|]. split; [reflexivity|].
  split; [lra|]. split.
  - unfold constant_row. rewrite Hp. split.
    + intros Hz. repeat constructor; lra.
    + intros Hc. inversion Hc as [|? ? E1 Hc1]; subst.
      inversion Hc1 as [|? ? E2 Hc2]; subst.
      inversion Hc2 as [|? ? E3 _]; subst. lra.
  - destruct (Qeq_dec (mx - mn) 0) as [Hz|Hnz].
    + unfold np_div. rewrite (Qeq_eq_bool _ _ Hz).
      assert (Hn : 3 * (med - iso) == 0) by lra.
      by rewrite (Qeq_eq_bool _ _ Hn).
    + destruct (np_div_bounded (3 * (med - iso)) (mx - mn))
        as (q & -> & Hq); [lra|lra|lra|done].
Qed.



(** ** What an operation returns, from the store it leaves *)

Section Returned.
Context `{Library}.

Lemma fmapM_returned {A B} (f : A → B) (m : M A) i :
  returned (fmapM f m i) = result_map f (returned (m i)) ∧
  info (fmapM f m i) = info (m i).
Proof.
  unfold fmapM, bind. by destruct (returned (m i)).
Qed.

(** The two tails of the simple operations, after a guard that passed. *)
Lemma guarded_hsort_returned {A} (g : list (list Q) → result A) force s
    batch i :
  arrays_efg s = Some batch →
  returned (ensure K_evals_hsort force s i) = Ok () →
  let o := _has_efg_check (λ s,
             do _ <- ensure K_evals_hsort force s;
             do efg_evals <- info_get_evals_hsort;
             lift (g efg_evals)) s i in
  info o = info (ensure K_evals_hsort force s i) ∧
  returned o = (let? hs := returned (info_get_evals_hsort (info o)) in g hs).
Proof.
  intros Hs Hok o. subst o. rewrite (has_efg_check_some _ _ _ Hs).
  rewrite (bind_ok _ _ _ _ Hok). cbn [info returned].
  set (i1 := info (ensure K_evals_hsort force s i)).
  unfold bind. simpl.
  destruct (info_evals_hsort i1) eqn:E; simpl; by rewrite E.
Qed.

Lemma guarded_evals_returned {A} (g : list (list Q) → result A) force s
    batch i :
  arrays_efg s = Some batch →
  returned (ensure K_evals force s i) = Ok () →
  let o := _has_efg_check (λ s,
             do _ <- ensure K_evals force s;
             do efg_evals <- info_get_evals;
             lift (g efg_evals)) s i in
  info o = info (ensure K_evals force s i) ∧
  returned o = (let? ev := returned (info_get_evals (info o)) in g ev).
Proof.
  intros Hs Hok o. subst o. rewrite (has_efg_check_some _ _ _ Hs).
  rewrite (bind_ok _ _ _ _ Hok). cbn [info returned].
  set (i1 := info (ensure K_evals force s i)).
  unfold bind. simpl.
  destruct (info_evals i1) eqn:E; simpl; by rewrite E.
Qed.

Lemma ensure_cached_ok key s i :
  info_has i key = true → returned (ensure key false s i) = Ok ().
Proof. intros Hk. by rewrite (ensure_cached key s i Hk). Qed.

Lemma guard_passes_ok op s batch i key :
  arrays_efg s = Some batch → guard_passes op batch i →
  key ∈ read_keys op →
  (forced op = false → returned (ensure key false s i) = Ok ()) ∧
  returned (ensure key (forced op) s i) = Ok ().
Proof.
  intros Hs [Hne|[Hall Hf]] Hkey.
  - split; [intros _|]; by eapply ensure_ok.
  - rewrite Forall_forall in Hall. rewrite Hf.
    split; [intros _|]; by apply ensure_cached_ok, Hall.
Qed.

(** The quadrupolar constant after a guard that passed. *)
Lemma qconst_returned s batch force use_q isotopes isotope_list i :
  arrays_efg s = Some batch →
  returned (ensure K_evals force s i) = Ok () →
  let o := EFGQuadrupolarConstant.extract s force use_q isotopes
             isotope_list i in
  let i1 := info (ensure K_evals force s i) in
  match _nmr_data with
  | None =>
      returned o = Raise (RuntimeError
        ("NMR data not available. Something may be " +:+
         "wrong with this installation of Soprano")) ∧
      info o = i1
  | Some data =>
      let moments := Res.for_each
        (EFGQuadrupolarConstant.atom_moment data use_q isotopes None)
        (enumerate (chemical_symbols s)) in
      returned o = (let? q_list := moments in
                    let? vzz := returned (EFGVzz.get s i1) in
                    np_mul (map (Qmult k) q_list) vzz) ∧
      info o = match moments with
               | Ok _ => info (EFGVzz.get s i1)
               | Raise _ => i1
               end
  end.
Proof.
  intros Hs Hok o i1.
  destruct (qconst_list_shape s force use_q isotopes i)
    as (r & i' & pre & post & _ & _ & Hshape).
  destruct (Hshape isotope_list) as (tr & _ & Ho).
  destruct (Hshape None) as (tr0 & _ & Ho0).
  subst o. rewrite Ho. cbn [returned info].
  assert (Hr : r = returned (EFGQuadrupolarConstant.extract s force use_q
                               isotopes None i)) by by rewrite Ho0.
  assert (Hi : i' = info (EFGQuadrupolarConstant.extract s force use_q
                            isotopes None i)) by by rewrite Ho0.
  rewrite Hr, Hi. clear Hr Hi Ho Ho0 Hshape.
  unfold EFGQuadrupolarConstant.extract.
  rewrite (has_efg_check_some _ _ _ Hs).
  rewrite (bind_ok _ _ _ _ Hok). fold i1. cbn [returned info].
  destruct _nmr_data as [data|]; [|done].
  rewrite !bind_ret. cbv zeta. rewrite bind_lift.
  destruct (Res.for_each _ _) as [q_list|e]; [|done]. simpl.
  unfold bind. by destruct (returned (EFGVzz.get s i1)).
Qed.

(** A derived quantity returns what the rest of its [extract] computes
from the store that the call leaves. *)
Lemma run_returned op s batch i :
  derived op = true → arrays_efg s = Some batch → guard_passes op batch i →
  returned (run op s i) = from_store op s (info (run op s i)).
Proof.
  intros Hd Hs Hg.
  destruct op as [?|f|f|f|f|f|f|f use_q isotopes isotope_list];
    try discriminate Hd; unfold run;
    match goal with
    | |- context [fmapM ?c ?m i] =>
        destruct (fmapM_returned c m i) as [-> ->]
    end.
  - unfold EFGVzz.extract.
    destruct (guarded_hsort_returned (Res.for_each item_last) f s batch i Hs)
      as [_ ->]; [|done].
    eapply (guard_passes_ok (Vzz f)); [done..|apply list_elem_of_here].
  - unfold EFGAnisotropy.extract.
    destruct (guarded_hsort_returned (λ ev, _anisotropy ev false) f s batch
                i Hs) as [_ ->]; [|done].
    eapply (guard_passes_ok (Anisotropy f)); [done..|apply list_elem_of_here].
  - unfold EFGReducedAnisotropy.extract.
    destruct (guarded_hsort_returned (λ ev, _anisotropy ev true) f s batch
                i Hs) as [_ ->]; [|done].
    eapply (guard_passes_ok (ReducedAnisotropy f));
      [done..|apply list_elem_of_here].
  - unfold EFGAsymmetry.extract.
    destruct (guarded_hsort_returned _asymmetry f s batch i Hs)
      as [_ ->]; [|done].
    eapply (guard_passes_ok (Asymmetry f)); [done..|apply list_elem_of_here].
  - unfold EFGSpan.extract.
    destruct (guarded_evals_returned _span f s batch i Hs)
      as [_ ->]; [|done].
    eapply (guard_passes_ok (Span f)); [done..|apply list_elem_of_here].
  - unfold EFGSkew.extract.
    destruct (guarded_evals_returned _skew f s batch i Hs)
      as [_ ->]; [|done].
    eapply (guard_passes_ok (Skew f)); [done..|apply list_elem_of_here].
  - set (op := QuadrupolarConstant f use_q isotopes isotope_list) in *.
    assert (Hok : returned (ensure K_evals f s i) = Ok ()).
    { eapply (guard_passes_ok op); [done..|apply list_elem_of_here]. }
    pose proof (qconst_returned s batch f use_q isotopes isotope_list i
                  Hs Hok) as Hq. cbv zeta in Hq.
    set (i1 := info (ensure K_evals f s i)) in *.
    assert (Hok1 : returned (ensure K_evals_hsort false s i1) = Ok ()).
    { destruct Hg as [Hne|[Hall Hf]]; [by eapply ensure_ok|].
      simpl in Hf. subst f. rewrite Forall_forall in Hall.
      assert (i1 = i) as ->.
      { unfold i1. by rewrite (ensure_cached K_evals s i)
          by (apply Hall, list_elem_of_here). }
      apply ensure_cached_ok, Hall.
      apply list_elem_of_further, list_elem_of_here. }
    destruct (guarded_hsort_returned (Res.for_each item_last) false s batch
                i1 Hs Hok1) as [_ Hv].
    subst op. unfold from_store. destruct _nmr_data as [data|].
    + destruct Hq as [-> ->].
      destruct (Res.for_each _ (enumerate _)) as [q_list|e]; [|done].
      cbn [Res.bind]. unfold EFGVzz.get, EFGVzz.extract. rewrite Hv.
      by destruct (returned (info_get_evals_hsort _)).
    + by destruct Hq as [-> _].
Qed.
End Returned.

Section Reuse.
Context `{Library}.

Lemma from_store_symbols op s s' i :
  chemical_symbols s = chemical_symbols s' →
  from_store op s i = from_store op s' i.
Proof. intros Hsym. destruct op; simpl; by rewrite ?Hsym. Qed.

Lemma stored_read_keys op batch hs :
  Forall (λ key, info_has (stored_entries batch hs) key = true)
         (read_keys op).
Proof. apply Forall_forall. intros key _. apply stored_has. Qed.

(** After a pass the store is the same whatever it was before. *)
Lemma fresh_store_unique op s batch i i' :
  derived op = true → arrays_efg s = Some batch → batch ≠ [] →
  info_has i (tested_key op) = false ∨ forced op = true →
  info_has i' (tested_key op) = false ∨ forced op = true →
  info (run op s i) = info (run op s i') ∧
  returned (run op s i) = returned (run op s i') ∧
  ∃ hs, _haeb_sort (batch_evals batch) = Ok hs ∧
        info (run op s i) = stored_entries batch hs.
Proof.
  intros Hd Hs Hne Hk Hk'.
  destruct (derived_memo op s batch i Hd Hs) as (_ & _ & Hf).
  destruct (derived_memo op s batch i' Hd Hs) as (_ & _ & Hf').
  destruct (Hf Hne Hk) as (_ & hs & Hhs & Hi).
  destruct (Hf' Hne Hk') as (_ & hs' & Hhs' & Hi').
  assert (hs' = hs) as -> by congruence.
  rewrite !(run_returned op s batch) by (done || by left).
  rewrite Hi, Hi'. split; [done|]. split; [done|]. by exists hs.
Qed.
End Reuse.

(** X5. With [force_recalc=True] a derived quantity does not depend on
    what the store held: whatever the entries were, stale or of the wrong
    size, the call diagonalises once, returns the same result and leaves
    the same three entries. *)
Theorem forced_recalc_ignores_store `{Library} (op : operation)
    (s : Atoms) (batch : list mat3) (i i' : Info) :
  derived op = true → forced op = true →
  arrays_efg s = Some batch → batch ≠ [] →
  returned (run op s i) = returned (run op s i') ∧
  info (run op s i) = info (run op s i') ∧
  passes (trace (run op s i)) = 1%nat.
Proof.
  intros Hd Hf Hs Hne.
  destruct (fresh_store_unique op s batch i i' Hd Hs Hne
              (or_intror Hf) (or_intror Hf)) as (Hi & Hr & _).
  split; [done|]. split; [done|].
  destruct (derived_memo op s batch i Hd Hs) as (_ & _ & Hfresh).
  by destruct (Hfresh Hne (or_intror Hf)) as [Hp _].
Qed.

Lemma forced_recalc_ignores_store_witness :
  returned (run (H := demo_library) (Anisotropy true) one_hydrogen
              only_evals)
  = returned (run (H := demo_library) (Anisotropy true) one_hydrogen
                without_evals) ∧
  info (run (H := demo_library) (Anisotropy true) one_hydrogen only_evals)
  = info (run (H := demo_library) (Anisotropy true) one_hydrogen
            without_evals) ∧
  passes (trace (run (H := demo_library) (Anisotropy true) one_hydrogen
                   only_evals)) = 1%nat.
Proof.
  apply (forced_recalc_ignores_store (H := demo_library) (Anisotropy true)
           one_hydrogen [diag 1 (-2) 1] only_evals without_evals);
    [reflexivity..|discriminate].
Defined.

(** X6. Without [force_recalc], entries that are in the store are
    trusted: the tensors are not looked at. Two structures with the same
    atoms and any tensors, on the same store holding the entries that
    the operation reads, get the same result, with no pass and the store
    left as it is; so a structure whose tensors changed keeps getting the
    values of the old ones until a recalculation is forced. *)
Theorem cached_entries_are_trusted `{Library} (op : operation)
    (s s' : Atoms) (batch batch' : list mat3) (i : Info) :
  derived op = true → forced op = false →
  arrays_efg s = Some batch → arrays_efg s' = Some batch' →
  chemical_symbols s = chemical_symbols s' →
  Forall (λ key, info_has i key = true) (read_keys op) →
  returned (run op s i) = returned (run op s' i) ∧
  info (run op s i) = i ∧ info (run op s' i) = i ∧
  passes (trace (run op s i)) = 0%nat ∧
  passes (trace (run op s' i)) = 0%nat.
Proof.
  intros Hd Hf Hs Hs' Hsym Hall.
  destruct (derived_memo op s batch i Hd Hs) as (_ & Hc & _).
  destruct (derived_memo op s' batch' i Hd Hs') as (_ & Hc' & _).
  destruct (Hc Hall Hf) as [Hp Hi]. destruct (Hc' Hall Hf) as [Hp' Hi'].
  rewrite (run_returned op s batch) by (done || by right).
  rewrite (run_returned op s' batch') by (done || by right).
  rewrite Hi, Hi'. by rewrite (from_store_symbols op s s' i Hsym).
Qed.

Lemma cached_entries_are_trusted_witness :
  let s' := {| arrays_efg := Some [diag 5 7 (-12)];
               chemical_symbols := ["H"] |} in
  returned (run (H := demo_library) (Vzz false) one_hydrogen
              only_evals_hsort_entry)
  = returned (run (H := demo_library) (Vzz false) s' only_evals_hsort_entry) ∧
  info (run (H := demo_library) (Vzz false) one_hydrogen
          only_evals_hsort_entry) = only_evals_hsort_entry ∧
  info (run (H := demo_library) (Vzz false) s' only_evals_hsort_entry)
  = only_evals_hsort_entry ∧
  passes (trace (run (H := demo_library) (Vzz false) one_hydrogen
                   only_evals_hsort_entry)) = 0%nat ∧
  passes (trace (run (H := demo_library) (Vzz false) s'
                   only_evals_hsort_entry)) = 0%nat.
Proof.
  apply (cached_entries_are_trusted (H := demo_library) (Vzz false)
           one_hydrogen _ [diag 1 (-2) 1] [diag 5 7 (-12)]
           only_evals_hsort_entry); try reflexivity.
  by repeat constructor.
Defined.

(** X7. Compute once, reuse afterwards. After a derived quantity has
    diagonalised, any derived quantity called without [force_recalc]
    makes no pass and leaves the store as it is, and what it returns
    from the cached entries is what it returns on a store that holds
    nothing. *)
Theorem cached_value_is_fresh_value `{Library} (first next : operation)
    (s : Atoms) (batch : list mat3) (i : Info) :
  derived first = true → derived next = true → forced next = false →
  arrays_efg s = Some batch → batch ≠ [] →
  info_has i (tested_key first) = false ∨ forced first = true →
  let o1 := run first s i in
  let o2 := run next s (info o1) in
  passes (trace o2) = 0%nat ∧
  info o2 = info o1 ∧
  returned o2 = returned (run next s empty_info).
Proof.
  intros Hd1 Hd2 Hf2 Hs Hne Hk. cbv zeta.
  destruct (derived_memo first s batch i Hd1 Hs) as (_ & _ & Hfresh).
  destruct (Hfresh Hne Hk) as (_ & hs & Hhs & Hi1).
  assert (Hkeys : Forall (λ key, info_has (info (run first s i)) key = true)
                    (read_keys next))
    by (rewrite Hi1; apply stored_read_keys).
  destruct (derived_memo next s batch (info (run first s i)) Hd2 Hs)
    as (_ & Hc & _).
  destruct (Hc Hkeys Hf2) as [Hp Hi2].
  split; [done|]. split; [done|].
  destruct (derived_memo next s batch empty_info Hd2 Hs) as (_ & _ & Hf0).
  destruct Hf0 as (_ & hs0 & Hhs0 & Hi0); [done| |].
  { left. by destruct next. }
  assert (hs0 = hs) as -> by congruence.
  rewrite (run_returned next s batch (info (run first s i)))
    by (done || by right).
  rewrite (run_returned next s batch empty_info) by (done || by left).
  by rewrite Hi2, Hi1, Hi0.
Qed.

Lemma cached_value_is_fresh_value_witness :
  let o1 := run (H := demo_library) (Span false) one_hydrogen empty_info in
  let o2 := run (H := demo_library) (QuadrupolarConstant false true ∅ None)
              one_hydrogen (info o1) in
  passes (trace o2) = 0%nat ∧
  info o2 = info o1 ∧
  returned o2 = returned (run (H := demo_library)
                            (QuadrupolarConstant false true ∅ None)
                            one_hydrogen empty_info).
Proof.
  apply (cached_value_is_fresh_value (H := demo_library) (Span false)
           (QuadrupolarConstant false true ∅ None) one_hydrogen
           [diag 1 (-2) 1] empty_info); try reflexivity.
  - discriminate.
  - by left.
Defined.

(** ** Fresh values, empty batches and the dataset *)

Section Fresh.
Context `{Library}.

Lemma for_each_triples {B} (g : list Q → result B) rows :
  (∀ a b c, ∃ y, g [a; b; c] = Ok y) →
  Forall (λ r, length r = 3%nat) rows →
  ∃ ys, Res.for_each g rows = Ok ys ∧ length ys = length rows.
Proof.
  intros Hg Hrows.
  destruct (for_each_total g rows) as [ys Hys].
  { eapply Forall_impl; [exact Hrows|]. intros r Hr.
    destruct (length_three r Hr) as (a & b & c & ->). apply Hg. }
  exists ys. split; [done|]. by eapply for_each_length.
Qed.

Lemma ensure_empty key force s i :
  arrays_efg s = Some [] → info_has i key = false ∨ force = true →
  ensure key force s i
  = {| returned := Raise ValueError; info := i;
       trace := [InfoContains key; Diagonalise] |}.
Proof.
  intros Hs Hk. unfold ensure, bind. simpl.
  assert (negb (info_has i key) || force = true) as ->.
  { destruct Hk as [-> | ->]; [done | by rewrite orb_true_r]. }
  by rewrite (diagonal_get_empty s i Hs).
Qed.

Lemma guarded_empty {A} key force (tail : Atoms → M A) (f : A → value)
    s i :
  arrays_efg s = Some [] → info_has i key = false ∨ force = true →
  fmapM f (_has_efg_check (λ s, do _ <- ensure key force s; tail s) s) i
  = {| returned := Raise ValueError; info := i;
       trace := [InfoContains key; Diagonalise] |}.
Proof.
  intros Hs Hk. unfold fmapM.
  rewrite (has_efg_check_some _ _ _ Hs).
  pose proof (ensure_empty key force s i Hs Hk) as He.
  unfold bind. rewrite He. reflexivity.
Qed.

Lemma diagonal_extract_run s batch save i :
  arrays_efg s = Some batch → batch ≠ [] →
  ∃ hs, _haeb_sort (batch_evals batch) = Ok hs ∧
    EFGDiagonal.extract s save i
    = {| returned := Ok (zip (batch_evals batch) (batch_evecs batch));
         info := if save then stored_entries batch hs else i;
         trace := Diagonalise ::
                  (if save then [InfoSet K_evals; InfoSet K_evals_hsort;
                                 InfoSet K_evecs] else []) |}.
Proof.
  intros Hs Hne. destruct (haeb_sort_batch batch) as (hs & Hhs & _).
  exists hs. split; [done|].
  assert (Hzip : zip (batch_evals batch) (batch_evecs batch)
    = map (λ efg, let '(w, v) := eigh (mat_div (mat_add efg (mat_T efg)) 2)
                  in (vec3_to_list w, v)) batch).
  { etrans; [|apply zip_fst_snd].
    by rewrite efg_diag_evals, efg_diag_evecs. }
  rewrite Hzip.
  unfold EFGDiagonal.extract.
  rewrite (has_efg_check_some _ _ _ Hs). unfold get_array_efg.
  rewrite Hs. cbv zeta.
  rewrite bind_ret. unfold bind at 1. simpl.
  rewrite bind_unzip by (by destruct batch).
  rewrite efg_diag_evals, efg_diag_evecs.
  destruct save; unfold bind; simpl; [|done].
  rewrite Hhs. simpl. reflexivity.
Qed.

Lemma atom_moment_error data use_q isotopes j e :
  match atom_error data use_q isotopes e with
  | Some err =>
      EFGQuadrupolarConstant.atom_moment data use_q isotopes None (j, e)
      = Raise err
  | None => ∃ q, resolves_to data use_q isotopes e q
  end.
Proof.
  unfold atom_error, EFGQuadrupolarConstant.atom_moment.
  destruct (data !! e) as [de|] eqn:Hde; [|done]. cbv zeta.
  rewrite select_isotope_documented.
  change (documented_isotope de use_q isotopes None j e)
    with (documented_isotope de use_q isotopes None 0 e).
  cbn [Res.bind]. unfold EFGQuadrupolarConstant.isotope_moment.
  destruct (elem_getitem de _) as [[v|q]|] eqn:Hit; try done.
  exists q, de, (documented_isotope de use_q isotopes None 0 e).
  split; [done|]. split; [|done].
  by rewrite select_isotope_documented.
Qed.

Lemma moments_first_error data use_q isotopes elems a :
  match first_error data use_q isotopes elems with
  | Some err =>
      Res.for_each (EFGQuadrupolarConstant.atom_moment data use_q isotopes
                      None) (zip (seq a (length elems)) elems) = Raise err
  | None => ∃ qs, Forall2 (resolves_to data use_q isotopes) elems qs
  end.
Proof.
  revert a. induction elems as [|e elems IH]; intros a; simpl first_error.
  - by exists [].
  - pose proof (atom_moment_error data use_q isotopes a e) as He.
    change (zip (seq a (length (e :: elems))) (e :: elems))
      with ((a, e) :: zip (seq (S a) (length elems)) elems).
    destruct (atom_error data use_q isotopes e) as [err|].
    + cbn [Res.for_each]. by rewrite He.
    + destruct He as [q Hq]. specialize (IH (S a)).
      destruct (first_error data use_q isotopes elems) as [err|].
      * cbn [Res.for_each].
        rewrite (resolves_to_moment _ _ _ _ _ a Hq). cbn [Res.bind].
        by rewrite IH.
      * destruct IH as [qs Hqs]. exists (q :: qs). by constructor.
Qed.
End Fresh.

(** X8. A quantity that reads one entry of the store, called when the
    entry is missing or with [force_recalc=True] on a structure that has
    tensors, never fails: it returns an array with one value per tensor.
    No row is too short for a column to be taken from it, and no
    reduction runs over an empty axis. *)
Theorem fresh_quantity_has_one_value_per_tensor `{Library} (op : operation)
    (s : Atoms) (batch : list mat3) (i : Info) :
  reads_one_entry op = true →
  arrays_efg s = Some batch → batch ≠ [] →
  info_has i (tested_key op) = false ∨ forced op = true →
  ∃ v, returned (run op s i) = Ok v ∧ value_length v = length batch.
Proof.
  intros Hone Hs Hne Hk.
  assert (Hd : derived op = true) by by destruct op.
  destruct (fresh_store_unique op s batch i i Hd Hs Hne Hk Hk)
    as (_ & _ & hs & Hhs & Hi).
  rewrite (run_returned op s batch i Hd Hs (or_introl Hne)), Hi.
  destruct (haeb_sort_batch batch) as (hs' & Hhs' & Hlen & Htri).
  assert (hs' = hs) as -> by congruence.
  pose proof (batch_evals_triples batch) as Hev.
  assert (Hlenev : length (batch_evals batch) = length batch).
  { unfold batch_evals. by rewrite length_map. }
  destruct op as [?|f|f|f|f|f|f|? ? ? ?]; try discriminate Hone;
    unfold from_store; cbn [returned info_get_evals info_get_evals_hsort
      stored_entries info_evals info_evals_hsort Res.bind].
  - destruct (for_each_triples item_last hs) as (ys & -> & Hys);
      [by eexists | done |].
    eexists. split; [reflexivity|]. simpl. congruence.
  - destruct (for_each_triples (anisotropy_row false) hs) as (ys & Hy & Hys);
      [by eexists | done |].
    unfold _anisotropy. rewrite Hy.
    eexists. split; [reflexivity|]. simpl. congruence.
  - destruct (for_each_triples (anisotropy_row true) hs) as (ys & Hy & Hys);
      [by eexists | done |].
    unfold _anisotropy. rewrite Hy.
    eexists. split; [reflexivity|]. simpl. congruence.
  - destruct (for_each_triples asymmetry_row hs) as (ys & Hy & Hys);
      [by eexists | done |].
    unfold _asymmetry. rewrite Hy.
    eexists. split; [reflexivity|]. simpl. congruence.
  - destruct (for_each_triples span_row (batch_evals batch))
      as (ys & Hy & Hys); [|done|].
    { intros a b c.
      destruct (span_skew_triple a b c) as (sp & x & Hsp & _). eauto. }
    unfold _span. rewrite Hy.
    eexists. split; [reflexivity|]. simpl. congruence.
  - destruct (for_each_triples skew_row (batch_evals batch))
      as (ys & Hy & Hys); [|done|].
    { intros a b c.
      destruct (span_skew_triple a b c) as (sp & x & _ & Hsk & _). eauto. }
    unfold _skew. rewrite Hy.
    eexists. split; [reflexivity|]. simpl. congruence.
Qed.

Lemma fresh_quantity_has_one_value_per_tensor_witness :
  ∃ v, returned (run (H := demo_library) (Skew false) hydrogen_and_unknown
                   empty_info) = Ok v ∧
       value_length v = length [diag 1 (-2) 1; diag 2 (-1) (-1)].
Proof.
  apply (fresh_quantity_has_one_value_per_tensor (H := demo_library)
           (Skew false) hydrogen_and_unknown
           [diag 1 (-2) 1; diag 2 (-1) (-1)] empty_info); try reflexivity.
  - discriminate.
  - by left.
Defined.

(** X9. A structure whose tensor array is empty passes the check for
    tensors, and every operation that has to diagonalise then fails with
    a [ValueError], from unpacking the empty list of eigenpairs, after
    one pass and with the store left as it was. *)
Theorem empty_tensor_array_fails `{Library} (op : operation) (s : Atoms)
    (i : Info) :
  arrays_efg s = Some [] →
  info_has i (tested_key op) = false ∨ forced op = true →
  returned (run op s i) = Raise ValueError ∧
  info (run op s i) = i ∧
  passes (trace (run op s i)) = 1%nat.
Proof.
  intros Hs Hk.
  destruct op as [save|f|f|f|f|f|f|f use_q isotopes isotope_list];
    simpl tested_key in Hk; simpl forced in Hk; unfold run.
  - unfold fmapM, EFGDiagonal.extract.
    rewrite (has_efg_check_some _ _ _ Hs). unfold get_array_efg.
    by rewrite Hs.
  - unfold EFGVzz.extract. by rewrite (guarded_empty _ _ _ _ _ _ Hs Hk).
  - unfold EFGAnisotropy.extract.
    by rewrite (guarded_empty _ _ _ _ _ _ Hs Hk).
  - unfold EFGReducedAnisotropy.extract.
    by rewrite (guarded_empty _ _ _ _ _ _ Hs Hk).
  - unfold EFGAsymmetry.extract.
    by rewrite (guarded_empty _ _ _ _ _ _ Hs Hk).
  - unfold EFGSpan.extract. by rewrite (guarded_empty _ _ _ _ _ _ Hs Hk).
  - unfold EFGSkew.extract. by rewrite (guarded_empty _ _ _ _ _ _ Hs Hk).
  - unfold EFGQuadrupolarConstant.extract.
    by rewrite (guarded_empty _ _ _ _ _ _ Hs Hk).
Qed.

Lemma empty_tensor_array_fails_witness :
  returned (run (H := demo_library) (Vzz false) no_atoms empty_info)
  = Raise ValueError ∧
  info (run (H := demo_library) (Vzz false) no_atoms empty_info)
  = empty_info ∧
  passes (trace (run (H := demo_library) (Vzz false) no_atoms empty_info))
  = 1%nat.
Proof.
  apply (empty_tensor_array_fails (H := demo_library) (Vzz false) no_atoms
           empty_info); [reflexivity | by left].
Defined.

(** X10. [EFGDiagonal.extract] returns one record per tensor, pairing
    the eigenvalues with the eigenvectors of the same tensor, after one
    pass. With [save_info=False] it returns the same records and leaves
    the store untouched; with [save_info=True] the three entries of the
    store are overwritten, whatever they held. *)
Theorem diagonal_pairs_values_with_vectors `{Library} (s : Atoms)
    (batch : list mat3) (save_info : bool) (i : Info) :
  arrays_efg s = Some batch → batch ≠ [] →
  let o := EFGDiagonal.extract s save_info i in
  returned o = Ok (zip (batch_evals batch) (batch_evecs batch)) ∧
  length (zip (batch_evals batch) (batch_evecs batch)) = length batch ∧
  passes (trace o) = 1%nat ∧
  (if save_info
   then ∃ hs, _haeb_sort (batch_evals batch) = Ok hs ∧
              info o = stored_entries batch hs
   else info o = i).
Proof.
  intros Hs Hne o. subst o.
  destruct (diagonal_extract_run s batch save_info i Hs Hne)
    as (hs & Hhs & ->). cbn [returned info trace].
  split; [done|]. split.
  { unfold batch_evals, batch_evecs.
    rewrite length_zip_with, !length_map. lia. }
  split; [by destruct save_info|].
  destruct save_info; [by exists hs | done].
Qed.

Lemma diagonal_pairs_values_with_vectors_witness :
  let o := EFGDiagonal.extract (H := demo_library) one_hydrogen false
             only_evals in
  returned o = Ok (zip (batch_evals (H := demo_library) [diag 1 (-2) 1])
                       (batch_evecs (H := demo_library) [diag 1 (-2) 1])) ∧
  length (zip (batch_evals (H := demo_library) [diag 1 (-2) 1])
              (batch_evecs (H := demo_library) [diag 1 (-2) 1]))
  = length [diag 1 (-2) 1] ∧
  passes (trace o) = 1%nat ∧
  info o = only_evals.
Proof.
  apply (diagonal_pairs_values_with_vectors (H := demo_library) one_hydrogen
           [diag 1 (-2) 1] false only_evals); [reflexivity | discriminate].
Defined.

(** X11. When the data file could not be loaded, the quadrupolar
    constant fails with the error of the missing dataset whatever the
    atoms and the isotope arguments are, and prints nothing, also for a
    list of the wrong length. The guard has run by then: if the
    eigenvalues were missing or a recalculation was forced, the failed
    call has diagonalised once and has written the three entries. *)
Theorem missing_dataset_fails_after_guard `{Library} (s : Atoms)
    (batch : list mat3) (force_recalc use_q_isotopes : bool)
    (isotopes : gmap string pyval) (isotope_list : option (list pyval))
    (i : Info) :
  _nmr_data = None →
  arrays_efg s = Some batch → batch ≠ [] →
  let o := EFGQuadrupolarConstant.extract s force_recalc use_q_isotopes
             isotopes isotope_list i in
  returned o = Raise no_dataset_error ∧
  printed (trace o) = [] ∧
  (if negb (info_has i K_evals) || force_recalc
   then passes (trace o) = 1%nat ∧
        ∃ hs, _haeb_sort (batch_evals batch) = Ok hs ∧
              info o = stored_entries batch hs
   else passes (trace o) = 0%nat ∧ info o = i).
Proof.
  intros Hdata Hs Hne o. subst o.
  unfold EFGQuadrupolarConstant.extract.
  rewrite (has_efg_check_some _ _ _ Hs).
  rewrite (bind_ok _ _ _ _ (ensure_ok K_evals force_recalc s batch i Hs Hne)).
  rewrite Hdata, bind_raise. cbn [returned info trace raise].
  rewrite app_nil_r. split; [done|].
  split; [apply mute_ensure|].
  destruct (negb (info_has i K_evals) || force_recalc) eqn:Hk.
  - assert (Hk' : info_has i K_evals = false ∨ force_recalc = true).
    { apply orb_true_iff in Hk as [Hk|Hk]; [left | by right].
      by apply negb_true_iff. }
    destruct (ensure_fresh K_evals force_recalc s batch i Hs Hne Hk')
      as (hs & Hhs & ->). cbn [info trace]. split; [done|]. by exists hs.
  - apply orb_false_iff in Hk as [Hk ->]. apply negb_false_iff in Hk.
    by rewrite (ensure_cached K_evals s i Hk).
Qed.

Lemma missing_dataset_fails_after_guard_witness :
  let o := EFGQuadrupolarConstant.extract (H := bare_library) one_hydrogen
             false false ∅ (Some []) empty_info in
  returned o = Raise no_dataset_error ∧
  printed (trace o) = [] ∧
  passes (trace o) = 1%nat ∧
  ∃ hs, _haeb_sort (batch_evals (H := bare_library) [diag 1 (-2) 1]) = Ok hs ∧
        info o = stored_entries (H := bare_library) [diag 1 (-2) 1] hs.
Proof.
  apply (missing_dataset_fails_after_guard (H := bare_library) one_hydrogen
           [diag 1 (-2) 1] false false ∅ (Some []) empty_info);
    [reflexivity | reflexivity | discriminate].
Defined.

(** X12. With tensors and the dataset loaded, the quadrupolar constant
    prints the warning once exactly when [isotope_list] is a list whose
    length is not the number of atoms, and nothing in every other case.
    The warning comes before the loop over the atoms, so it is printed
    also by a call that then fails. *)
Theorem warning_exactly_for_wrong_length `{Library} (s : Atoms)
    (batch : list mat3) (data : gmap string elem_data)
    (force_recalc use_q_isotopes : bool) (isotopes : gmap string pyval)
    (isotope_list : option (list pyval)) (i : Info) :
  _nmr_data = Some data →
  arrays_efg s = Some batch → batch ≠ [] →
  printed (trace (EFGQuadrupolarConstant.extract s force_recalc
                    use_q_isotopes isotopes isotope_list i))
  = list_warning isotope_list (length (chemical_symbols s)).
Proof.
  intros Hdata Hs Hne.
  unfold EFGQuadrupolarConstant.extract.
  rewrite (has_efg_check_some _ _ _ Hs).
  rewrite (bind_ok _ _ _ _ (ensure_ok K_evals force_recalc s batch i Hs Hne)).
  cbn [trace]. rewrite printed_app, (mute_ensure K_evals force_recalc s i).
  rewrite Hdata, bind_ret. cbv zeta. rewrite app_nil_l.
  set (i1 := info (ensure K_evals force_recalc s i)).
  assert (Hrest : ∀ il, mute (
    do q_list <- lift (Res.for_each
        (EFGQuadrupolarConstant.atom_moment data use_q_isotopes isotopes il)
        (enumerate (chemical_symbols s)));
    do vzz <- EFGVzz.get s;
    lift (np_mul (map (Qmult k) q_list) vzz))).
  { intros il. apply mute_bind; [apply mute_lift|]. intros q.
    apply mute_bind; [apply mute_vzz_get|]. intros; apply mute_lift. }
  unfold list_warning. destruct isotope_list as [l|].
  - destruct (bool_decide (length l = length (chemical_symbols s)));
      cbv iota beta delta [negb].
    + rewrite bind_ret. apply Hrest.
    + rewrite bind_assoc, bind_emit, bind_ret. cbn [trace].
      etrans; [apply (printed_app [warning])|].
      by rewrite (Hrest None i1).
  - rewrite bind_ret. apply Hrest.
Qed.

Lemma warning_exactly_for_wrong_length_witness :
  printed (trace (EFGQuadrupolarConstant.extract (H := demo_library)
                    hydrogen_and_unknown false false ∅
                    (Some [PInt 2]) empty_info))
  = list_warning (Some [PInt 2]) (length (chemical_symbols
                                            hydrogen_and_unknown)).
Proof.
  apply (warning_exactly_for_wrong_length (H := demo_library)
           hydrogen_and_unknown [diag 1 (-2) 1; diag 2 (-1) (-1)] demo_data
           false false ∅ (Some [PInt 2]) empty_info);
    [reflexivity | reflexivity | discriminate].
Defined.

(** X13. With tensors and the dataset loaded, the first atom that does
    not resolve decides the error of the quadrupolar constant: an absent
    element, an isotope without a record, or an isotope that names one of
    the two markers of the entry (a [TypeError]). The per-atom list and
    the atoms after it play no part. If there is no such atom, every
    element resolves to a moment. *)
Theorem first_unresolved_atom_decides `{Library} (s : Atoms)
    (batch : list mat3) (data : gmap string elem_data)
    (force_recalc use_q_isotopes : bool) (isotopes : gmap string pyval)
    (isotope_list : option (list pyval)) (i : Info) :
  _nmr_data = Some data →
  arrays_efg s = Some batch → batch ≠ [] →
  match first_error data use_q_isotopes isotopes (chemical_symbols s) with
  | Some err =>
      returned (EFGQuadrupolarConstant.extract s force_recalc
                  use_q_isotopes isotopes isotope_list i) = Raise err
  | None =>
      ∃ qs, Forall2 (resolves_to data use_q_isotopes isotopes)
                    (chemical_symbols s) qs
  end.
Proof.
  intros Hdata Hs Hne.
  destruct (qconst_run s batch data force_recalc use_q_isotopes isotopes
              isotope_list i Hs Hne Hdata) as [Hret _].
  pose proof (moments_first_error data use_q_isotopes isotopes
                (chemical_symbols s) 0) as Hm.
  destruct (first_error data use_q_isotopes isotopes (chemical_symbols s))
    as [err|]; [|exact Hm].
  rewrite Hret. unfold enumerate. by rewrite Hm.
Qed.

Lemma first_unresolved_atom_decides_witness :
  returned (EFGQuadrupolarConstant.extract (H := demo_library)
              hydrogen_and_unknown false false {[ "H" := PStr "7" ]}
              (Some [PStr "2"; PNone]) empty_info)
  = Raise (no_isotope_error (PStr "7") "H").
Proof.
  pose proof (first_unresolved_atom_decides (H := demo_library)
                hydrogen_and_unknown [diag 1 (-2) 1; diag 2 (-1) (-1)]
                demo_data false false {[ "H" := PStr "7" ]}
                (Some [PStr "2"; PNone]) empty_info) as W.
  set (err := first_error _ _ _ _) in W. vm_compute in err. subst err.
  apply W; [reflexivity | reflexivity | discriminate].
Defined.

(** ** The grid of a supercell *)


Lemma bind_fmap_list {A B C} (g : A → B) (f : B → list C) l :
  (g <$> l) ≫= f = l ≫= (λ a, f (g a)).
Proof.
  induction l as [|a l IH]; [done|].
  rewrite fmap_cons, !bind_cons. by rewrite IH.
Qed.

Lemma bind_seq_nth {A B} (l : list A) (d : A) (f : A → list B) :
  (seq 0 (length l) ≫= λ i, f (nth i l d)) = l ≫= f.
Proof.
  induction l as [|x l IH]; [done|].
  cbn [length seq]. rewrite !bind_cons. cbn [nth]. f_equal.
  by rewrite <- IH, <- fmap_S_seq, bind_fmap_list.
Qed.

Lemma concat_bind {A B} (l : list A) (f : A → list (list B)) :
  concat (l ≫= f) = l ≫= (λ x, concat (f x)).
Proof.
  induction l as [|x l IH]; [done|].
  rewrite !bind_cons, concat_app. by rewrite IH.
Qed.

Lemma bind_ext {A B} (f g : A → list B) l :
  (∀ x, f x = g x) → l ≫= f = l ≫= g.
Proof.
  intros E. induction l as [|x l IH]; [done|].
  rewrite !bind_cons. by rewrite E, IH.
Qed.

Lemma reshape_triples {A} (rows : list (list A)) :
  Forall (λ r, length r = 3%nat) rows →
  reshape (replicate (length rows) 3%nat) (concat rows) = rows ∧
  length (concat rows) = (length rows * 3)%nat.
Proof.
  induction 1 as [|r rows Hr _ [IH1 IH2]]; [done|].
  simpl. rewrite take_app_length', drop_app_length' by done.
  rewrite IH1, length_app, IH2. split; [done|lia].
Qed.

Lemma box_rows_triples xs ys zs :
  Forall (λ r, length r = 3%nat) (box_rows xs ys zs).
Proof.
  unfold box_rows. apply Forall_forall. intros r Hr.
  apply list_elem_of_bind in Hr as (z & Hr & _).
  apply list_elem_of_bind in Hr as (y & Hr & _).
  apply list_elem_of_bind in Hr as (x & Hr & _).
  by apply list_elem_of_singleton in Hr as ->.
Qed.

Lemma ravel_meshgrid xs ys zs :
  np_ravel (np_swapaxes_0_3 (np_meshgrid xs ys zs))
  = concat (box_rows xs ys zs).
Proof.
  unfold np_ravel, np_swapaxes_0_3, np_meshgrid, box_rows. simpl.
  rewrite concat_bind.
  rewrite <- (bind_seq_nth zs 0%Z). apply bind_ext. intros k.
  rewrite concat_bind.
  rewrite <- (bind_seq_nth ys 0%Z). apply bind_ext. intros j.
  rewrite concat_bind.
  rewrite <- (bind_seq_nth xs 0%Z). apply bind_ext. intros i.
  reflexivity.
Qed.

Lemma reshape_meshgrid xs ys zs :
  np_reshape_rows3 (np_swapaxes_0_3 (np_meshgrid xs ys zs))
  = Ok (box_rows xs ys zs).
Proof.
  unfold np_reshape_rows3. rewrite ravel_meshgrid.
  destruct (reshape_triples _ (box_rows_triples xs ys zs)) as [Hr Hl].
  rewrite Hl, Nat.Div0.mod_mul, Nat.div_mul by lia.
  rewrite decide_True by done. by rewrite Hr.
Qed.

Lemma gridgen_run latt rx ry rz :
  is_shape_3_3 latt = true →
  supcell_gridgen latt [rx; ry; rz]
  = Ok (box_rows (py_range (- rx) (rx + 1)) (py_range (- ry) (ry + 1))
                 (py_range (- rz) (rz + 1)),
        np_dot (box_rows (py_range (- rx) (rx + 1))
                         (py_range (- ry) (ry + 1))
                         (py_range (- rz) (rz + 1))) latt).
Proof.
  intros Hl. unfold supcell_gridgen. rewrite Hl.
  change (bool_decide (length [rx; ry; rz] = 3%nat)) with true.
  cbv iota beta delta [negb]. unfold item.
  change ([rx; ry; rz] !! 0%nat) with (Some rx).
  change ([rx; ry; rz] !! 1%nat) with (Some ry).
  change ([rx; ry; rz] !! 2%nat) with (Some rz).
  cbn [Res.bind]. cbv zeta.
  by rewrite reshape_meshgrid.
Qed.

Lemma elem_of_py_range r v :
  v ∈ py_range (- r) (r + 1) ↔ (- r ≤ v ≤ r)%Z.
Proof. unfold py_range. rewrite elem_of_seqZ. lia. Qed.

Lemma length_py_range r :
  length (py_range (- r) (r + 1)) = Z.to_nat (2 * r + 1).
Proof. unfold py_range. rewrite length_seqZ. f_equal. lia. Qed.

Lemma elem_of_box_rows xs ys zs x y z :
  [x; y; z] ∈ box_rows xs ys zs ↔ x ∈ xs ∧ y ∈ ys ∧ z ∈ zs.
Proof.
  unfold box_rows. rewrite list_elem_of_bind. split.
  - intros (z' & Hr & Hz). apply list_elem_of_bind in Hr as (y' & Hr & Hy).
    apply list_elem_of_bind in Hr as (x' & Hr & Hx).
    apply list_elem_of_singleton in Hr. by injection Hr as -> -> ->.
  - intros (Hx & Hy & Hz). exists z. split; [|done].
    apply list_elem_of_bind. exists y. split; [|done].
    apply list_elem_of_bind. exists x. split; [|done].
    apply list_elem_of_here.
Qed.

Lemma NoDup_box_rows xs ys zs :
  NoDup xs → NoDup ys → NoDup zs → NoDup (box_rows xs ys zs).
Proof.
  intros Hx Hy Hz. unfold box_rows.
  apply NoDup_bind; [| |done].
  - intros z1 z2 r _ _ H1 H2.
    apply list_elem_of_bind in H1 as (y1 & H1 & _).
    apply list_elem_of_bind in H1 as (x1 & H1 & _).
    apply list_elem_of_bind in H2 as (y2 & H2 & _).
    apply list_elem_of_bind in H2 as (x2 & H2 & _).
    apply list_elem_of_singleton in H1, H2. congruence.
  - intros z _. apply NoDup_bind; [| |done].
    + intros y1 y2 r _ _ H1 H2.
      apply list_elem_of_bind in H1 as (x1 & H1 & _).
      apply list_elem_of_bind in H2 as (x2 & H2 & _).
      apply list_elem_of_singleton in H1, H2. congruence.
    + intros y _. apply NoDup_bind; [| |done].
      * intros x1 x2 r _ _ H1 H2.
        apply list_elem_of_singleton in H1, H2. congruence.
      * intros x _. apply NoDup_singleton.
Qed.

Lemma length_bind_const {A B} (f : A → list B) l n :
  (∀ x, length (f x) = n) → length (l ≫= f) = (length l * n)%nat.
Proof.
  intros Hf. induction l as [|x l IH]; [done|].
  rewrite bind_cons, length_app, Hf, IH. simpl. lia.
Qed.

Lemma length_box_rows xs ys zs :
  length (box_rows xs ys zs) = (length zs * (length ys * length xs))%nat.
Proof.
  unfold box_rows. apply length_bind_const. intros z.
  apply length_bind_const. intros y.
  rewrite (length_bind_const _ xs 1%nat) by done. lia.
Qed.

Lemma lookup_bind_const {A B} (f : A → list B) l n a b x :
  (∀ x, length (f x) = n) → l !! a = Some x → (b < n)%nat →
  (l ≫= f) !! (a * n + b)%nat = f x !! b.
Proof.
  intros Hf. revert a. induction l as [|x0 l IH]; intros a Ha Hb; [done|].
  rewrite bind_cons. destruct a as [|a]; simpl in Ha.
  - injection Ha as ->. simpl. apply lookup_app_l. by rewrite Hf.
  - rewrite lookup_app_r by (rewrite Hf; simpl; lia).
    rewrite Hf. replace (S a * n + b - n)%nat with (a * n + b)%nat
      by (simpl; lia).
    by apply IH.
Qed.

Lemma lookup_box_rows xs ys zs i j k x y z :
  xs !! i = Some x → ys !! j = Some y → zs !! k = Some z →
  box_rows xs ys zs !! ((k * length ys + j) * length xs + i)%nat
  = Some [x; y; z].
Proof.
  intros Hx Hy Hz. unfold box_rows.
  assert (Hin : ∀ y0, length (xs ≫= (λ x0, [[x0; y0; z]])) = length xs).
  { intros y0. rewrite (length_bind_const _ xs 1%nat) by done. lia. }
  replace ((k * length ys + j) * length xs + i)%nat
    with (k * (length ys * length xs) + (j * length xs + i))%nat by lia.
  pose proof (lookup_lt_Some _ _ _ Hx) as Hi.
  pose proof (lookup_lt_Some _ _ _ Hy) as Hj.
  rewrite (lookup_bind_const _ zs (length ys * length xs)%nat k _ z);
    [| |done|nia].
  2: { intros z0. apply length_bind_const. intros y0.
       rewrite (length_bind_const _ xs 1%nat) by done. lia. }
  rewrite (lookup_bind_const _ ys (length xs) j i y); [|done..].
  pose proof (lookup_bind_const (λ x0, [[x0; y; z]]) xs 1%nat i 0%nat x)
    as Hl.
  replace (i * 1 + 0)%nat with i in Hl by lia.
  rewrite Hl; [done|done|done|lia].
Qed.

Lemma lookup_py_range r i :
  (Z.of_nat i ≤ 2 * r)%Z →
  py_range (- r) (r + 1) !! i = Some (Z.of_nat i - r)%Z.
Proof.
  intros Hi. unfold py_range. rewrite lookup_seqZ_lt by lia. f_equal. lia.
Qed.

Lemma np_dot_row latt x y z :
  is_shape_3_3 latt = true →
  Forall2 Qeq
    (map (λ c, qsum (zip_with (λ v brow, inject_Z v * nth c brow 0)
                              [x; y; z] latt)) (seq 0 3))
    (lattice_point latt x y z).
Proof.
  intros Hl. apply andb_true_iff in Hl as [Hn Hrows].
  apply bool_decide_eq_true_1 in Hn.
  destruct (length_three _ Hn) as (a & b & c & ->).
  simpl in Hrows.
  repeat (apply andb_true_iff in Hrows as [?%bool_decide_eq_true_1 Hrows]).
  destruct (length_three a) as (a0 & a1 & a2 & ->); [done|].
  destruct (length_three b) as (b0 & b1 & b2 & ->); [done|].
  destruct (length_three c) as (c0 & c1 & c2 & ->); [done|].
  unfold lattice_point, qsum. simpl.
  repeat constructor; ring.
Qed.

Lemma reverse_bind {A B} (f : A → list B) l :
  reverse (l ≫= f) = reverse l ≫= (λ x, reverse (f x)).
Proof.
  induction l as [|x l IH]; [done|].
  rewrite bind_cons, reverse_app, reverse_cons, bind_app, IH.
  by rewrite bind_singleton.
Qed.

Lemma fmap_bind_list {A B C} (g : B → C) (f : A → list B) l :
  g <$> (l ≫= f) = l ≫= (λ x, g <$> f x).
Proof.
  induction l as [|x l IH]; [done|].
  rewrite !bind_cons, fmap_app. by rewrite IH.
Qed.

Lemma reverse_py_range r :
  reverse (py_range (- r) (r + 1)) = Z.opp <$> py_range (- r) (r + 1).
Proof.
  apply list_eq. intros i.
  pose proof (length_py_range r) as Hlen.
  destruct (decide (i < Z.to_nat (2 * r + 1))%nat) as [Hi|Hi].
  - rewrite reverse_lookup by (rewrite Hlen; lia).
    rewrite list_lookup_fmap, Hlen.
    rewrite !lookup_py_range by lia. simpl. f_equal. lia.
  - rewrite !lookup_ge_None_2; [done|..].
    + rewrite length_fmap, Hlen. lia.
    + rewrite length_reverse, Hlen. lia.
Qed.

Lemma reverse_box_rows xs ys zs :
  reverse (box_rows xs ys zs)
  = box_rows (reverse xs) (reverse ys) (reverse zs).
Proof.
  unfold box_rows. rewrite reverse_bind. apply bind_ext. intros z.
  rewrite reverse_bind. apply bind_ext. intros y.
  rewrite reverse_bind. apply bind_ext. intros x. done.
Qed.

Lemma opp_box_rows xs ys zs :
  map (map Z.opp) (box_rows xs ys zs)
  = box_rows (Z.opp <$> xs) (Z.opp <$> ys) (Z.opp <$> zs).
Proof.
  unfold box_rows.
  change (map (map Z.opp)) with (fmap (M := list) (map Z.opp)).
  rewrite fmap_bind_list, bind_fmap_list. apply bind_ext. intros z.
  rewrite fmap_bind_list, bind_fmap_list. apply bind_ext. intros y.
  rewrite fmap_bind_list, bind_fmap_list. apply bind_ext. intros x. done.
Qed.

(** X14. On a 3x3 lattice and three bounds, [supcell_gridgen] returns
    the integer points of the box that the bounds span: a triplet is a
    row of the grid exactly when each coordinate is within its bound, no
    row is there twice, and the grid has (2 r0 + 1)(2 r1 + 1)(2 r2 + 1)
    rows, with one Cartesian shift per row. *)
Theorem supercell_grid_is_the_box (latt_cart : list (list Q))
    (r0 r1 r2 : Z) :
  is_shape_3_3 latt_cart = true →
  ∃ grid shifts,
    supcell_gridgen latt_cart [r0; r1; r2] = Ok (grid, shifts) ∧
    Forall (λ row, length row = 3%nat) grid ∧
    (∀ x y z, [x; y; z] ∈ grid ↔
       (- r0 ≤ x ≤ r0 ∧ - r1 ≤ y ≤ r1 ∧ - r2 ≤ z ≤ r2)%Z) ∧
    NoDup grid ∧
    length grid = (Z.to_nat (2 * r2 + 1) * (Z.to_nat (2 * r1 + 1) *
                   Z.to_nat (2 * r0 + 1)))%nat ∧
    length shifts = length grid.
Proof.
  intros Hl. eexists _, _. split; [by apply gridgen_run|].
  split; [apply box_rows_triples|]. split.
  { intros x y z. rewrite elem_of_box_rows. by rewrite !elem_of_py_range. }
  split.
  { apply NoDup_box_rows; apply NoDup_seqZ. }
  split.
  { by rewrite length_box_rows, !length_py_range. }
  unfold np_dot. by rewrite length_map.
Qed.

Lemma supercell_grid_is_the_box_witness :
  ∃ grid shifts,
    supcell_gridgen (cubic 2) [1; 2; 1]%Z = Ok (grid, shifts) ∧
    Forall (λ row, length row = 3%nat) grid ∧
    (∀ x y z, [x; y; z] ∈ grid ↔
       (- 1 ≤ x ≤ 1 ∧ - 2 ≤ y ≤ 2 ∧ - 1 ≤ z ≤ 1)%Z) ∧
    NoDup grid ∧
    length grid = (Z.to_nat (2 * 1 + 1) * (Z.to_nat (2 * 2 + 1) *
                   Z.to_nat (2 * 1 + 1)))%nat ∧
    length shifts = length grid.
Proof.
  apply (supercell_grid_is_the_box (cubic 2) 1 2 1). reflexivity.
Defined.

(** X15. The order of the rows of the grid: the first coordinate runs
    fastest and the third slowest. For non-negative bounds, the row at
    index (k (2 r1 + 1) + j) (2 r0 + 1) + i is (i - r0, j - r1, k - r2);
    the first row is the corner (-r0, -r1, -r2) and the middle row is
    the origin. *)
Theorem supercell_grid_order (latt_cart : list (list Q)) (r0 r1 r2 : Z)
    (i j k : nat) :
  is_shape_3_3 latt_cart = true →
  (Z.of_nat i ≤ 2 * r0)%Z → (Z.of_nat j ≤ 2 * r1)%Z →
  (Z.of_nat k ≤ 2 * r2)%Z →
  ∃ grid shifts,
    supcell_gridgen latt_cart [r0; r1; r2] = Ok (grid, shifts) ∧
    grid !! ((k * Z.to_nat (2 * r1 + 1) + j) * Z.to_nat (2 * r0 + 1)
             + i)%nat
    = Some [Z.of_nat i - r0; Z.of_nat j - r1; Z.of_nat k - r2]%Z.
Proof.
  intros Hl Hi Hj Hk. eexists _, _. split; [by apply gridgen_run|].
  rewrite <- (length_py_range r1), <- (length_py_range r0).
  apply lookup_box_rows; by apply lookup_py_range.
Qed.

Lemma supercell_grid_order_witness :
  ∃ grid shifts,
    supcell_gridgen (cubic 2) [1; 2; 1]%Z = Ok (grid, shifts) ∧
    grid !! ((1 * Z.to_nat (2 * 2 + 1) + 2) * Z.to_nat (2 * 1 + 1) + 1)%nat
    = Some [Z.of_nat 1 - 1; Z.of_nat 2 - 2; Z.of_nat 1 - 1]%Z.
Proof.
  apply (supercell_grid_order (cubic 2) 1 2 1 1 2 1);
    [reflexivity | lia | lia | lia].
Defined.

(** X16. The grid is symmetric about the origin: read from the end, it
    is the grid with every coordinate negated. *)
Theorem supercell_grid_centrosymmetric (latt_cart : list (list Q))
    (r0 r1 r2 : Z) :
  is_shape_3_3 latt_cart = true →
  ∃ grid shifts,
    supcell_gridgen latt_cart [r0; r1; r2] = Ok (grid, shifts) ∧
    reverse grid = map (map Z.opp) grid.
Proof.
  intros Hl. eexists _, _. split; [by apply gridgen_run|].
  by rewrite reverse_box_rows, opp_box_rows, !reverse_py_range.
Qed.

Lemma supercell_grid_centrosymmetric_witness :
  ∃ grid shifts,
    supcell_gridgen (cubic 2) [1; 0; 2]%Z = Ok (grid, shifts) ∧
    reverse grid = map (map Z.opp) grid.
Proof.
  apply (supercell_grid_centrosymmetric (cubic 2) 1 0 2). reflexivity.
Defined.

(** X17. The Cartesian shifts go with the rows of the grid one to one:
    the shift of the row (x, y, z) is x a + y b + z c, with a, b and c
    the rows of [latt_cart]. *)
Theorem supercell_shifts_are_lattice_points (latt_cart : list (list Q))
    (r0 r1 r2 : Z) :
  is_shape_3_3 latt_cart = true →
  ∃ grid shifts,
    supcell_gridgen latt_cart [r0; r1; r2] = Ok (grid, shifts) ∧
    Forall2 (λ row shift,
               ∃ x y z, row = [x; y; z] ∧
                 Forall2 Qeq shift (lattice_point latt_cart x y z))
            grid shifts.
Proof.
  intros Hl. eexists _, _. split; [by apply gridgen_run|].
  unfold np_dot. apply Forall2_fmap_r, Forall_Forall2_diag.
  eapply Forall_impl; [apply box_rows_triples|]. intros row Hrow.
  destruct (length_three row Hrow) as (x & y & z & ->).
  exists x, y, z. split; [done|]. by apply np_dot_row.
Qed.

Lemma supercell_shifts_are_lattice_points_witness :
  ∃ grid shifts,
    supcell_gridgen (cubic 2) [1; 0; 2]%Z = Ok (grid, shifts) ∧
    Forall2 (λ row shift,
               ∃ x y z, row = [x; y; z] ∧
                 Forall2 Qeq shift (lattice_point (cubic 2) x y z))
            grid shifts.
Proof.
  apply (supercell_shifts_are_lattice_points (cubic 2) 1 0 2). reflexivity.
Defined.

(** X18. [supcell_gridgen] fails exactly on arguments of the wrong
    shape, with a [ValueError]; on a 3x3 lattice and three bounds it
    returns for all bounds, negative ones included. *)
Theorem supcell_gridgen_fails_on_shape_only (latt_cart : list (list Q))
    (r_bounds : list Z) :
  if is_shape_3_3 latt_cart && bool_decide (length r_bounds = 3%nat)
  then is_ok (supcell_gridgen latt_cart r_bounds) = true
  else supcell_gridgen latt_cart r_bounds = Raise ValueError.
Proof.
  destruct (is_shape_3_3 latt_cart) eqn:Hl; simpl.
  - destruct (bool_decide (length r_bounds = 3%nat)) eqn:Hr.
    + apply bool_decide_eq_true_1 in Hr.
      destruct (length_three _ Hr) as (r0 & r1 & r2 & ->).
      by rewrite (gridgen_run _ _ _ _ Hl).
    + unfold supcell_gridgen. by rewrite Hl, Hr.
  - unfold supcell_gridgen. by rewrite Hl.
Qed.

(** ** Eigenvectors as rotations *)








